(** * Room-service inventory tools: [check_menu] and [place_order]

    A shallow embedding of the two tool functions of
    [src/upswing_hotel_agent.py] (lines 43-97) together with the part of
    the document store they talk to: the [menu] and [orders]
    collections, the [$regex] filter with option [i] used by both
    lookups, [find], [find_one], [update_one] with [$inc], and
    [insert_one]; then the set-up of the menu (lines 20-37) and the
    loop of the chat session (lines 166-205).  The agent executor, its
    prompt and the conversation memory are library objects: the session
    takes them as given.  The line the search prints on the terminal is
    not modelled.

    Strings are ASCII text.  A collection is the list of its documents
    in insertion order, which is the order in which a cursor yields
    them.  A call is a function from the store to its outcome and the
    store it leaves; what [datetime.now()] gives is an argument of the
    call. *)

From Stdlib Require Import String Ascii List ZArith Lia Bool DecimalString.
Import ListNotations.

Open Scope string_scope.
Open Scope Z_scope.

(* ================================================================== *)
(** ** Python strings *)

(** [str.lower()] on ASCII text. *)
Definition lower_char (c : ascii) : ascii :=
  if (Ascii.leb "A" c && Ascii.leb c "Z")%bool
  then ascii_of_N (N_of_ascii c + 32)
  else c.

Fixpoint py_lower (s : string) : string :=
  match s with
  | EmptyString => EmptyString
  | String c s' => String (lower_char c) (py_lower s')
  end.

(** [str(n)] for an [int]. *)
Definition str_of_int (n : Z) : string := NilEmpty.string_of_int (Z.to_int n).

(** [sep.join(l)]. *)
Definition py_join (sep : string) (l : list string) : string := String.concat sep l.

(** [s.startswith(p)], the prefix contract of the PlaceOrder tool. *)
Definition startswith (p s : string) : bool := String.prefix p s.

(* ================================================================== *)
(** ** The [$regex] operator

    The store evaluates [{"$regex": p, "$options": "i"}] with PCRE.  The
    fragment modelled here: literal characters, [.], a backslash before
    a character that is not a letter or a digit, the anchors [^] and
    [$], alternation, groups, and the quantifiers [*], [+], [?] after a
    character, a dot or a group.  A pattern PCRE refuses to compile is
    [Rejected]; a pattern that uses anything else of PCRE is
    [Unmodelled], and nothing is stated about it. *)

Inductive regex : Type :=
| Eps
| Chr (c : ascii)
| Any
| Bol
| Eol
| Seq (r1 r2 : regex)
| Alt (r1 r2 : regex)
| Star (r : regex).

Inductive verdict (A : Type) : Type :=
| Accepted (a : A)
| Rejected
| Unmodelled.
Arguments Accepted {A} a.
Arguments Rejected {A}.
Arguments Unmodelled {A}.

Inductive token : Type :=
| TLit (c : ascii)
| TDot | TBol | TEol | TBar | TOpen | TClose
| TStar | TPlus | TOpt.

Definition is_alnum (c : ascii) : bool :=
  ((Ascii.leb "0" c && Ascii.leb c "9")
   || (Ascii.leb "A" c && Ascii.leb c "Z")
   || (Ascii.leb "a" c && Ascii.leb c "z"))%bool.

(** The characters of ASCII text: codes 1 to 127. *)
Definition is_text (c : ascii) : bool :=
  ((0 <? N_of_ascii c) && (N_of_ascii c <? 128))%N%bool.

Definition newline : ascii := ascii_of_N 10.

(** The characters with a meaning of their own in a pattern. *)
Definition is_meta (c : ascii) : bool :=
  existsb (Ascii.eqb c)
    ["\"; "^"; "$"; "."; "|"; "?"; "*"; "+"; "("; ")"; "["; "]"; "{"; "}"]%char.

Definition lex_cons (t : token) (v : verdict (list token)) : verdict (list token) :=
  match v with
  | Accepted ts => Accepted (t :: ts)
  | Rejected => Rejected
  | Unmodelled => Unmodelled
  end.

Fixpoint lex (s : list ascii) : verdict (list token) :=
  match s with
  | [] => Accepted []
  | c :: s' =>
      if Ascii.eqb c "\" then
        match s' with
        | [] => Rejected
        | e :: s'' =>
            if (is_alnum e || negb (is_text e))%bool then Unmodelled
            else lex_cons (TLit e) (lex s'')
        end
      else if Ascii.eqb c "." then lex_cons TDot (lex s')
      else if Ascii.eqb c "^" then lex_cons TBol (lex s')
      else if Ascii.eqb c "$" then lex_cons TEol (lex s')
      else if Ascii.eqb c "|" then lex_cons TBar (lex s')
      else if Ascii.eqb c "(" then lex_cons TOpen (lex s')
      else if Ascii.eqb c ")" then lex_cons TClose (lex s')
      else if Ascii.eqb c "*" then lex_cons TStar (lex s')
      else if Ascii.eqb c "+" then lex_cons TPlus (lex s')
      else if Ascii.eqb c "?" then lex_cons TOpt (lex s')
      else if (is_meta c || negb (is_text c))%bool then Unmodelled
      else lex_cons (TLit c) (lex s')
  end.

(** One open group while parsing: the finished branches and the items of
    the branch being read, both latest first.  An item carries whether a
    quantifier may follow it. *)
Record frame : Type := {
  alts : list regex;
  cur : list (regex * bool)
}.

Definition empty_frame : frame := {| alts := []; cur := [] |}.

Definition seq_of (l : list regex) : regex := fold_right Seq Eps l.

Definition branch (fr : frame) : regex := seq_of (rev (map fst (cur fr))).

Definition close (fr : frame) : regex :=
  fold_left (fun acc b => Alt b acc) (alts fr) (branch fr).

Definition push (r : regex) (q : bool) (fr : frame) : frame :=
  {| alts := alts fr; cur := (r, q) :: cur fr |}.

Definition quantify (t : token) (r : regex) : regex :=
  match t with
  | TStar => Star r
  | TPlus => Seq r (Star r)
  | TOpt => Alt r Eps
  | _ => r
  end.

Definition parse_quantifier (t : token) (fr : frame) (stack : list frame)
  : verdict frame :=
  match cur fr with
  | (r, true) :: items => Accepted {| alts := alts fr; cur := (quantify t r, false) :: items |}
  | (_, false) :: _ => Unmodelled
  | [] =>
      match alts fr, stack with
      | [], [] => Rejected
      | _, _ => Unmodelled
      end
  end.

Fixpoint parse (ts : list token) (fr : frame) (stack : list frame) : verdict regex :=
  match ts with
  | [] =>
      match stack with
      | [] => Accepted (close fr)
      | _ :: _ => Rejected
      end
  | t :: ts' =>
      match t with
      | TLit c => parse ts' (push (Chr c) true fr) stack
      | TDot => parse ts' (push Any true fr) stack
      | TBol => parse ts' (push Bol false fr) stack
      | TEol => parse ts' (push Eol false fr) stack
      | TBar => parse ts' {| alts := branch fr :: alts fr; cur := [] |} stack
      | TOpen => parse ts' empty_frame (fr :: stack)
      | TClose =>
          match stack with
          | [] => Rejected
          | parent :: stack' => parse ts' (push (close fr) true parent) stack'
          end
      | TStar | TPlus | TOpt =>
          match parse_quantifier t fr stack with
          | Accepted fr' => parse ts' fr' stack
          | Rejected => Rejected
          | Unmodelled => Unmodelled
          end
      end
  end.

Definition regex_compile (pattern : string) : verdict regex :=
  match lex (list_ascii_of_string pattern) with
  | Accepted ts => parse ts empty_frame []
  | Rejected => Rejected
  | Unmodelled => Unmodelled
  end.

(** A matching position: whether it is the start of the subject, and
    what is left of the subject. *)
Definition pos : Type := (bool * list ascii)%type.

Definition caseless_eqb (c x : ascii) : bool :=
  Ascii.eqb (lower_char c) (lower_char x).

Definition shorter (p q : pos) : bool :=
  (length (snd q) <? length (snd p))%nat.

(** Positions reached by zero or more rounds of [f]; a round that
    consumes nothing reaches nothing new. *)
Fixpoint star_from (f : pos -> list pos) (fuel : nat) (p : pos) : list pos :=
  p :: match fuel with
       | O => []
       | S n => flat_map (star_from f n) (filter (shorter p) (f p))
       end.

(** The positions at which a match of [r] begun at [p] can end. *)
Fixpoint run (r : regex) (p : pos) : list pos :=
  match r with
  | Eps => [p]
  | Chr c =>
      match snd p with
      | x :: xs => if caseless_eqb c x then [(false, xs)] else []
      | [] => []
      end
  | Any =>
      match snd p with
      | x :: xs => if Ascii.eqb x newline then [] else [(false, xs)]
      | [] => []
      end
  | Bol => if fst p then [p] else []
  | Eol =>
      match snd p with
      | [] => [p]
      | [x] => if Ascii.eqb x newline then [p] else []
      | _ => []
      end
  | Seq r1 r2 => flat_map (run r2) (run r1 p)
  | Alt r1 r2 => run r1 p ++ run r2 p
  | Star r1 => star_from (run r1) (length (snd p)) p
  end.

Fixpoint starts (at_start : bool) (s : list ascii) : list pos :=
  (at_start, s) ::
  match s with
  | [] => []
  | _ :: s' => starts false s'
  end.

Definition is_nil {A : Type} (l : list A) : bool :=
  match l with [] => true | _ => false end.

(** Does [r] match somewhere in [subject]? *)
Definition regex_search (r : regex) (subject : string) : bool :=
  existsb (fun p => negb (is_nil (run r p)))
          (starts true (list_ascii_of_string subject)).

(** The engine as the store uses it: to a pattern, taken with option
    [i], the test it performs on a subject, or its refusal of the
    pattern.  What is proved for every engine holds for the one of the
    store, whatever it does on the patterns left out above. *)
Class Engine : Type := compile_pattern : string -> verdict (string -> bool).

(* ================================================================== *)
(** ** Documents and the store *)

(** A field value: an integer or a string. *)
Inductive scalar : Type :=
| SInt (n : Z)
| SStr (s : string).

(** A document of the [menu] collection.  Every field the tools read may
    be missing ([None]) or of the wrong type; [_id] is set by the store.
    The seeded documents are
    [{"item": str, "price": int, "tags": [str, ...], "stock": int}]. *)
Record document : Type := {
  _id : N;
  item : option scalar;
  price : option scalar;
  tags : option (list scalar);
  stock : option scalar
}.

(** A document of the [orders] collection, as built at lines 90-95. *)
Record order : Type := {
  order_item : scalar;
  order_price : scalar;
  status : string;
  timestamp : Z
}.

Record store : Type := {
  menu : list document;
  orders : list order
}.

(** What a call does besides changing the store: it returns a value or
    raises.  [Beyond] marks a call whose pattern the engine at hand does
    not cover. *)
Inductive exn : Type :=
| KeyError (key : string)
| TypeError
| OperationFailure
| WriteError.

Inductive outcome (A : Type) : Type :=
| Returned (a : A)
| Raised (e : exn)
| Beyond.
Arguments Returned {A} a.
Arguments Raised {A} e.
Arguments Beyond {A}.

Definition M (A : Type) : Type := store -> outcome A * store.

Definition ret {A : Type} (a : A) : M A := fun st => (Returned a, st).

Definition bind {A B : Type} (m : M A) (k : A -> M B) : M B :=
  fun st =>
    match m st with
    | (Returned a, st') => k a st'
    | (Raised e, st') => (Raised e, st')
    | (Beyond, st') => (Beyond, st')
    end.

(** A computation that touches no collection. *)
Definition lift {A : Type} (o : outcome A) : M A := fun st => (o, st).

Notation "x <- m ;; k" := (bind m (fun x => k))
  (at level 61, m at next level, right associativity).
Notation "m ;;; k" := (bind m (fun _ => k))
  (at level 61, right associativity).

(* ------------------------------------------------------------------ *)
(** *** Query filters *)

Inductive field : Type := FItem | FTags.

(** The filters the tools send:
    [{}], [{f: {"$regex": p, "$options": "i"}}], [{"$or": [a, b]}]. *)
Inductive filter : Type :=
| MatchAll
| RegexI (f : field) (pattern : string)
| Or (a b : filter).

(** The strings of a document a regex on the field is tried against: the
    field itself when it is a string, the string elements when it is an
    array. *)
Definition strings_of (v : scalar) : list string :=
  match v with
  | SStr s => [s]
  | SInt _ => []
  end.

Definition field_strings (f : field) (doc : document) : list string :=
  match f with
  | FItem => match item doc with Some v => strings_of v | None => [] end
  | FTags => match tags doc with Some l => flat_map strings_of l | None => [] end
  end.

Section Tools.

Context {engine : Engine}.

Fixpoint compile_filter (q : filter) : verdict (document -> bool) :=
  match q with
  | MatchAll => Accepted (fun _ => true)
  | RegexI f pattern =>
      match compile_pattern pattern with
      | Accepted test => Accepted (fun doc => existsb test (field_strings f doc))
      | Rejected => Rejected
      | Unmodelled => Unmodelled
      end
  | Or a b =>
      match compile_filter a, compile_filter b with
      | Accepted pa, Accepted pb => Accepted (fun doc => (pa doc || pb doc)%bool)
      | Rejected, _ => Rejected
      | _, Rejected => Rejected
      | _, _ => Unmodelled
      end
  end.

(** [collection.find(q)], read to the end. *)
Definition find (q : filter) : M (list document) :=
  fun st =>
    match compile_filter q with
    | Accepted p => (Returned (List.filter p (menu st)), st)
    | Rejected => (Raised OperationFailure, st)
    | Unmodelled => (Beyond, st)
    end.

(** [collection.find_one(q)]: the first match, or [None]. *)
Definition find_one (q : filter) : M (option document) :=
  fun st =>
    match compile_filter q with
    | Accepted p => (Returned (List.find p (menu st)), st)
    | Rejected => (Raised OperationFailure, st)
    | Unmodelled => (Beyond, st)
    end.

Definition with_stock (doc : document) (v : scalar) : document :=
  {| _id := _id doc; item := item doc; price := price doc;
     tags := tags doc; stock := Some v |}.

(** [$inc] of the [stock] field of one document: a missing field is set
    to the amount, a field that is not a number is a write error. *)
Definition inc_stock (delta : Z) (doc : document) : outcome document :=
  match stock doc with
  | Some (SInt k) => Returned (with_stock doc (SInt (k + delta)))
  | None => Returned (with_stock doc (SInt delta))
  | Some (SStr _) => Raised WriteError
  end.

Fixpoint update_first (id : N) (delta : Z) (docs : list document)
  : outcome (list document) :=
  match docs with
  | [] => Returned []
  | doc :: rest =>
      if N.eqb (_id doc) id then
        match inc_stock delta doc with
        | Returned doc' => Returned (doc' :: rest)
        | Raised e => Raised e
        | Beyond => Beyond
        end
      else
        match update_first id delta rest with
        | Returned rest' => Returned (doc :: rest')
        | Raised e => Raised e
        | Beyond => Beyond
        end
  end.

(** [menu_collection.update_one({"_id": id}, {"$inc": {"stock": delta}})]. *)
Definition update_one_inc_stock (id : N) (delta : Z) : M unit :=
  fun st =>
    match update_first id delta (menu st) with
    | Returned docs => (Returned tt, {| menu := docs; orders := orders st |})
    | Raised e => (Raised e, st)
    | Beyond => (Beyond, st)
    end.

(** [orders_collection.insert_one(o)]. *)
Definition insert_one (o : order) : M unit :=
  fun st => (Returned tt, {| menu := menu st; orders := orders st ++ [o] |}).

(* ------------------------------------------------------------------ *)
(** *** Python on field values *)

(** [str(v)], as an f-string renders a field. *)
Definition py_str (v : scalar) : string :=
  match v with
  | SInt n => str_of_int n
  | SStr s => s
  end.

(** [v > 0] and [v <= 0]: a string against an [int] is a [TypeError]. *)
Definition py_gt0 (v : scalar) : outcome bool :=
  match v with
  | SInt n => Returned (0 <? n)
  | SStr _ => Raised TypeError
  end.

Definition py_le0 (v : scalar) : outcome bool :=
  match v with
  | SInt n => Returned (n <=? 0)
  | SStr _ => Raised TypeError
  end.

(** [', '.join(tags)]: every element must be a string. *)
Fixpoint as_strings (l : list scalar) : outcome (list string) :=
  match l with
  | [] => Returned []
  | SStr s :: l' =>
      match as_strings l' with
      | Returned ss => Returned (s :: ss)
      | Raised e => Raised e
      | Beyond => Beyond
      end
  | SInt _ :: _ => Raised TypeError
  end.

Definition join_tags (l : list scalar) : outcome string :=
  match as_strings l with
  | Returned ss => Returned (py_join ", " ss)
  | Raised e => Raised e
  | Beyond => Beyond
  end.

(** [doc.get(key, default)] and [doc[key]]. *)
Definition get {A : Type} (v : option A) (default : A) : A :=
  match v with Some a => a | None => default end.

Definition getitem {A : Type} (v : option A) (key : string) : outcome A :=
  match v with Some a => Returned a | None => Raised (KeyError key) end.

(* ================================================================== *)
(** ** The tools *)

Definition nl : string := String newline EmptyString.

Definition no_match : string := "No matching items found on the menu.".

(** Lines 63-69: the body of the loop, giving the line appended to
    [response]. *)
Definition render_line (doc : document) : outcome string :=
  let item := get (item doc) (SStr "Unknown") in
  let price := get (price doc) (SInt 0) in
  let stock := get (stock doc) (SInt 0) in
  let tags := get (tags doc) [] in
  match py_gt0 stock with
  | Returned positive =>
      let status :=
        if positive then "Available ($" ++ py_str price ++ ")" else "OUT OF STOCK" in
      match join_tags tags with
      | Returned joined =>
          Returned ("- " ++ py_str item ++ ": " ++ status
                    ++ " (Tags: " ++ joined ++ ")")
      | Raised e => Raised e
      | Beyond => Beyond
      end
  | Raised e => Raised e
  | Beyond => Beyond
  end.

(** Lines 61-69: [for doc in cursor: ... response.append(...)]. *)
Fixpoint render_loop (cursor : list document) (response : list string)
  : outcome (list string) :=
  match cursor with
  | [] => Returned response
  | doc :: cursor' =>
      match render_line doc with
      | Returned line => render_loop cursor' (response ++ [line])
      | Raised e => Raised e
      | Beyond => Beyond
      end
  end.

(** Lines 48-59: the cursor of the search. *)
Definition select (query : string) : M (list document) :=
  let search_criteria := Or (RegexI FItem query) (RegexI FTags query) in
  if (String.eqb query EmptyString || String.eqb (py_lower query) "menu")%bool
  then find MatchAll
  else find search_criteria.

(** Lines 43-74. *)
Definition check_menu (query : string) : M string :=
  cursor <- select query ;;
  response <- lift (render_loop cursor []) ;;
  if is_nil response then ret no_match
  else ret (py_join nl response).

Definition not_on_menu (item_name : string) : string :=
  "Error: '" ++ item_name ++ "' is not on the menu. Please check the menu first.".

Definition out_of_stock (name : scalar) : string :=
  "Sorry, " ++ py_str name ++ " is currently out of stock.".

Definition ordered (name : scalar) : string :=
  "SUCCESS: Ordered " ++ py_str name ++ ". It will arrive in 30 mins.".

(** Line 79: the filter of the lookup. *)
Definition exact_match (item_name : string) : filter :=
  RegexI FItem ("^" ++ item_name ++ "$").

(** Lines 76-97.  [now] is what [datetime.now()] gives during the call. *)
Definition place_order (now : Z) (item_name : string) : M string :=
  found <- find_one (exact_match item_name) ;;
  match found with
  | None => ret (not_on_menu item_name)
  | Some it =>
      s <- lift (getitem (stock it) "stock") ;;
      empty <- lift (py_le0 s) ;;
      if empty : bool then
        name <- lift (getitem (item it) "item") ;;
        ret (out_of_stock name)
      else
        update_one_inc_stock (_id it) (-1) ;;;
        name <- lift (getitem (item it) "item") ;;
        p <- lift (getitem (price it) "price") ;;
        insert_one {| order_item := name; order_price := p;
                      status := "kitchen_preparing"; timestamp := now |} ;;;
        name' <- lift (getitem (item it) "item") ;;
        ret (ordered name')
  end.

(** Lines 32-37: the seeded menu. *)
Definition club_sandwich : document :=
  {| _id := 1; item := Some (SStr "Club Sandwich"); price := Some (SInt 15);
     tags := Some [SStr "contains_gluten"; SStr "meat"]; stock := Some (SInt 10) |}.

Definition buddha_bowl : document :=
  {| _id := 2; item := Some (SStr "Vegan Buddha Bowl"); price := Some (SInt 18);
     tags := Some [SStr "vegan"; SStr "gluten_free"; SStr "nuts"];
     stock := Some (SInt 5) |}.

Definition caesar_salad : document :=
  {| _id := 3; item := Some (SStr "Caesar Salad"); price := Some (SInt 12);
     tags := Some [SStr "vegetarian"; SStr "contains_dairy"]; stock := Some (SInt 0) |}.

Definition fruit_platter : document :=
  {| _id := 4; item := Some (SStr "Fruit Platter"); price := Some (SInt 10);
     tags := Some [SStr "vegan"; SStr "gluten_free"]; stock := Some (SInt 20) |}.

Definition seeded_menu : list document :=
  [club_sandwich; buddha_bowl; caesar_salad; fruit_platter].

Definition seeded : store := {| menu := seeded_menu; orders := [] |}.

(** Other menus the tools can meet. *)
Definition last_platter : store :=
  {| menu := [with_stock fruit_platter (SInt 1)]; orders := [] |}.

Definition one_platter : store := {| menu := [fruit_platter]; orders := [] |}.

Definition pasta_v : document :=
  {| _id := 1; item := Some (SStr "Pasta V"); price := Some (SInt 9);
     tags := Some [SStr "vegan"]; stock := Some (SInt 3) |}.

Definition pasta_veg : document :=
  {| _id := 2; item := Some (SStr "Pasta (V)"); price := Some (SInt 11);
     tags := Some [SStr "vegetarian"]; stock := Some (SInt 0) |}.

Definition pasta_veg_stocked : document :=
  {| _id := 2; item := Some (SStr "Pasta (V)"); price := Some (SInt 11);
     tags := Some [SStr "vegetarian"]; stock := Some (SInt 4) |}.

Definition soup_v : document :=
  {| _id := 1; item := Some (SStr "Soup (V)"); price := Some (SInt 7);
     tags := Some [SStr "vegan"]; stock := Some (SInt 3) |}.

(** Documents with fields missing. *)
Definition bare : document :=
  {| _id := 1; item := None; price := None; tags := None; stock := None |}.

Definition unpriced : document :=
  {| _id := 2; item := Some (SStr "Green Tea"); price := None;
     tags := Some [SStr "vegan"]; stock := Some (SInt 2) |}.

Definition uncounted : document :=
  {| _id := 3; item := Some (SStr "Lemonade"); price := Some (SInt 4);
     tags := Some [SStr "vegan"]; stock := None |}.

Definition patchy : store := {| menu := [bare; unpriced; uncounted]; orders := [] |}.

(* ================================================================== *)
(** ** Calls one after the other *)

Inductive op : Type :=
| Search (query : string)
| PlaceOrder (now : Z) (item_name : string).

Definition call (o : op) : M string :=
  match o with
  | Search query => check_menu query
  | PlaceOrder now item_name => place_order now item_name
  end.

(** The store after a call, whether it returned or raised. *)
Definition exec (st : store) (o : op) : store := snd (call o st).

Definition exec_all (ops : list op) (st : store) : store := fold_left exec ops st.

(* ================================================================== *)
(** ** Calls at the same time

    The store runs one operation at a time, and a call of [place_order]
    sends three: [find_one] (line 79), [update_one] (line 87) and
    [insert_one] (line 96).  Between two of them another call may run.
    A thread is a call of [place_order] cut at these operations. *)

Inductive thread : Type :=
| Calling (now : Z) (item_name : string)
| Decrementing (now : Z) (it : document)
| Recording (now : Z) (it : document)
| Finished (result : outcome string).

Definition finish (r : outcome string * store) : thread * store :=
  (Finished (fst r), snd r).

(** One store operation of a thread, with the Python that follows it. *)
Definition step (t : thread) (st : store) : thread * store :=
  match t with
  | Calling now item_name =>
      match find_one (exact_match item_name) st with
      | (Returned None, st') => (Finished (Returned (not_on_menu item_name)), st')
      | (Returned (Some it), st') =>
          match (s <- lift (getitem (stock it) "stock") ;; lift (py_le0 s)) st' with
          | (Returned true, st'') =>
              finish ((name <- lift (getitem (item it) "item") ;;
                       ret (out_of_stock name)) st'')
          | (Returned false, st'') => (Decrementing now it, st'')
          | (Raised e, st'') => (Finished (Raised e), st'')
          | (Beyond, st'') => (Finished Beyond, st'')
          end
      | (Raised e, st') => (Finished (Raised e), st')
      | (Beyond, st') => (Finished Beyond, st')
      end
  | Decrementing now it =>
      match update_one_inc_stock (_id it) (-1) st with
      | (Returned _, st') => (Recording now it, st')
      | (Raised e, st') => (Finished (Raised e), st')
      | (Beyond, st') => (Finished Beyond, st')
      end
  | Recording now it =>
      finish ((name <- lift (getitem (item it) "item") ;;
               p <- lift (getitem (price it) "price") ;;
               insert_one {| order_item := name; order_price := p;
                             status := "kitchen_preparing"; timestamp := now |} ;;;
               name' <- lift (getitem (item it) "item") ;;
               ret (ordered name')) st)
  | Finished r => (Finished r, st)
  end.

Fixpoint set_nth {A : Type} (i : nat) (a : A) (l : list A) : list A :=
  match l, i with
  | [], _ => []
  | _ :: l', O => a :: l'
  | x :: l', S i' => x :: set_nth i' a l'
  end.

(** Run the threads as the schedule says: each entry lets that thread
    do its next operation. *)
Fixpoint interleave (schedule : list nat) (threads : list thread) (st : store)
  : list thread * store :=
  match schedule with
  | [] => (threads, st)
  | i :: schedule' =>
      match nth_error threads i with
      | Some t =>
          let (t', st') := step t st in
          interleave schedule' (set_nth i t' threads) st'
      | None => interleave schedule' threads st
      end
  end.

End Tools.

(** The modelled fragment of PCRE as an engine. *)
#[global] Instance pcre_fragment : Engine :=
  fun pattern =>
    match regex_compile pattern with
    | Accepted r => Accepted (regex_search r)
    | Rejected => Rejected
    | Unmodelled => Unmodelled
    end.

(* ================================================================== *)
(** ** Vocabulary of the properties *)

(** No character of [s] has a meaning of its own in a pattern. *)
Definition plain_char (c : ascii) : bool := (negb (is_meta c) && is_text c)%bool.

Definition plain (s : string) : bool := forallb plain_char (list_ascii_of_string s).

(** The items the parser holds after reading the plain characters [s]. *)
Definition lit_items (s : list ascii) : list (regex * bool) :=
  map (fun c => (Chr c, true)) s.

(** [s] with a leading [p] removed, letter case apart. *)
Fixpoint strip_prefix (p s : list ascii) : option (list ascii) :=
  match p, s with
  | [], _ => Some s
  | c :: p', x :: s' => if caseless_eqb c x then strip_prefix p' s' else None
  | _ :: _, [] => None
  end.

(** What [$] accepts: the end of the subject, or a newline that ends it. *)
Definition at_end (t : list ascii) : bool :=
  match t with
  | [] => true
  | [x] => Ascii.eqb x newline
  | _ => false
  end.

(** [q] occurs in [s], letter case apart. *)
Definition ci_substring (q s : string) : Prop :=
  exists before after, py_lower s = before ++ py_lower q ++ after.

(** [a] and [b] are the same string, letter case apart. *)
Definition ci_equal (a b : string) : bool := String.eqb (py_lower a) (py_lower b).

(** The same as a test: [q] begins at some position of [s]. *)
Fixpoint ci_occurs_from (q s : list ascii) : bool :=
  match strip_prefix q s with
  | Some _ => true
  | None => match s with [] => false | _ :: s' => ci_occurs_from q s' end
  end.

Definition ci_occurs (q s : string) : bool :=
  ci_occurs_from (list_ascii_of_string q) (list_ascii_of_string s).

(** The document has [q] in its name or in one of its tags. *)
Definition mentions (q : string) (doc : document) : bool :=
  (existsb (ci_occurs q) (field_strings FItem doc)
   || existsb (ci_occurs q) (field_strings FTags doc))%bool.

(** The name of the document is [item_name], letter case apart; a
    newline that ends the stored name does not count. *)
Definition named (item_name : string) (doc : document) : bool :=
  existsb (fun s => (ci_equal s item_name
                     || String.eqb (py_lower s) (py_lower item_name ++ nl))%bool)
          (field_strings FItem doc).

(** The name of a document, when it has one that is a string. *)
Definition name_of (doc : document) : option string :=
  match item doc with
  | Some (SStr s) => Some s
  | _ => None
  end.

(** The tags of a document that are strings. *)
Definition tag_strings (doc : document) : list string := field_strings FTags doc.

(** A document as the seed writes them: a string name, integer price and
    stock, string tags; any field may be missing. *)
Definition is_str (v : scalar) : bool :=
  match v with SStr _ => true | SInt _ => false end.

Definition well_typed (doc : document) : bool :=
  (match stock doc with Some (SStr _) => false | _ => true end
   && match tags doc with Some l => forallb is_str l | None => true end)%bool.

Definition stock_of (doc : document) : Z :=
  match stock doc with
  | Some (SInt k) => k
  | _ => 0
  end.

Definition availability (doc : document) : string :=
  if 0 <? stock_of doc
  then "Available ($" ++ py_str (get (price doc) (SInt 0)) ++ ")"
  else "OUT OF STOCK".

(** The line of the search result for one document. *)
Definition result_line (doc : document) : string :=
  "- " ++ py_str (get (item doc) (SStr "Unknown")) ++ ": " ++ availability doc
  ++ " (Tags: " ++ py_join ", " (tag_strings doc) ++ ")".

(** The text of a search whose cursor gave [cursor]. *)
Definition result_text (cursor : list document) : string :=
  if is_nil cursor then no_match else py_join nl (map result_line cursor).

(** The line and the text once more, written with nothing of the tools:
    a field value as text, the tags that are text, the entry of a
    document, and the entries of a cursor one to a line. *)
Definition shown (v : scalar) : string :=
  match v with
  | SInt n => NilEmpty.string_of_int (Z.to_int n)
  | SStr s => s
  end.

Definition tag_texts (doc : document) : list string :=
  match tags doc with
  | Some l => flat_map (fun v => match v with SStr s => [s] | SInt _ => [] end) l
  | None => []
  end.

Definition entry (doc : document) : string :=
  "- " ++ match item doc with Some v => shown v | None => "Unknown" end ++ ": "
  ++ (if 0 <? stock_of doc
      then "Available ($" ++ match price doc with Some v => shown v | None => "0" end ++ ")"
      else "OUT OF STOCK")
  ++ " (Tags: " ++ String.concat ", " (tag_texts doc) ++ ")".

Definition listing (cursor : list document) : string :=
  String.concat (String "010" EmptyString) (map entry cursor).

(** Every stock that is a number is at least 0. *)
Definition stock_nonneg (doc : document) : Prop :=
  match stock doc with
  | Some (SInt k) => 0 <= k
  | _ => True
  end.

Definition stocks_nonneg (st : store) : Prop := Forall stock_nonneg (menu st).

(** The store keeps [_id] unique within a collection. *)
Definition unique_ids (st : store) : Prop := NoDup (map _id (menu st)).

(** [m'] is [m] with the stock of one document, which was positive, one
    lower. *)
Definition decremented (m m' : list document) : Prop :=
  exists before it after k,
    m = (before ++ it :: after)%list /\
    stock it = Some (SInt k) /\ 0 < k /\
    m' = (before ++ with_stock it (SInt (k - 1)) :: after)%list.

(** A document whose stock was stored as text. *)
Definition mistyped : document :=
  {| _id := 5; item := Some (SStr "Iced Tea"); price := Some (SInt 3);
     tags := Some [SStr "vegan"]; stock := Some (SStr "3") |}.

(** The string has no newline in it. *)
Definition one_line (s : string) : bool :=
  forallb (fun c => negb (Ascii.eqb c newline)) (list_ascii_of_string s).

(** The document has a name, and it is a string. *)
Definition has_name (doc : document) : bool :=
  match name_of doc with Some _ => true | None => false end.

(** Every name of the menu is on one line. *)
Definition names_on_one_line (m : list document) : bool :=
  forallb (fun doc => match name_of doc with Some s => one_line s | None => true end) m.

(* ================================================================== *)
(** ** Runs of calls *)

Section Runs.

Context {engine : Engine}.

(** The calls of a run, one after the other, with what each returned or
    raised. *)
Fixpoint run_calls (ops : list op) (st : store) : list (outcome string) * store :=
  match ops with
  | [] => ([], st)
  | o :: ops' =>
      let (r, st') := call o st in
      let (rs, st'') := run_calls ops' st' in
      (r :: rs, st'')
  end.

End Runs.

Definition is_order_call (o : op) : bool :=
  match o with
  | PlaceOrder _ _ => true
  | Search _ => false
  end.

(** What the tools read of a menu document and never write: all of it
    but the stock. *)
Definition identity_of (doc : document)
  : N * option scalar * option scalar * option (list scalar) :=
  (_id doc, item doc, price doc, tags doc).

(** The units the menu has in stock. *)
Definition total_stock (m : list document) : Z :=
  fold_right (fun doc n => stock_of doc + n) 0 m.

Definition priced (doc : document) : bool :=
  match price doc with Some _ => true | None => false end.

(** A document with a price, an integer stock and, if it has tags,
    string tags. *)
Definition complete (doc : document) : bool :=
  (match stock doc with Some (SInt _) => true | _ => false end
   && priced doc
   && match tags doc with Some l => forallb is_str l | None => true end)%bool.

(* ================================================================== *)
(** ** The chat session (lines 166-205)

    The loop of [run_chat_session] reads a line, leaves on an exit word,
    and otherwise hands the line to the agent, writes the line to the
    chat memory (line 199), then the output of the response (line 200),
    and prints the output (line 202); whatever is raised on the way is
    caught and printed, what was done before it stays done, and the loop
    goes on (lines 204-205).

    The agent executor and the conversation memory belong to libraries:
    they are what an [Agent] gives.  [invoke] is line 193: the response,
    given as what it holds under the key ['output'] ([None] when it has
    no such key), or the message of what was raised, and the store the
    run of the agent leaves.  [load_memory] is line 190.  The chat
    memory is the list of the messages kept for the session, and a
    write to it appends a message or raises: [add_message_error] is the
    message of what the write raises, if it does.  [stdout] holds the
    lines the loop prints, not the prompt; printing is taken to
    succeed. *)

Inductive message : Type :=
| HumanMessage (content : string)
| AIMessage (content : string).

Class Agent : Type := {
  invoke : string -> string -> store -> (option string + string) * store;
  load_memory : list message -> string;
  add_message_error : message -> list message -> option string
}.

Record session : Type := {
  chat_memory : list message;
  stdout : list string;
  db : store
}.

(** Whether the loop goes on or was left by [break]. *)
Inductive loop_status : Type := Looping | Left.

(** Line 186. *)
Definition is_exit (user_input : string) : bool :=
  existsb (String.eqb (py_lower user_input)) ["exit"; "quit"].

(** What [input] raises when there is nothing left to read. *)
Definition eof_message : string := "EOF when reading a line".

Definition print (line : string) (s : session) : session :=
  {| chat_memory := chat_memory s; stdout := stdout s ++ [line]; db := db s |}.

Section Chat.

Context {agent : Agent}.

(** Lines 184-205: one round of the loop, on what is left to read. *)
Definition round (stdin : list string) (s : session) : loop_status * list string * session :=
  match stdin with
  | [] => (Looping, [], print ("Error: " ++ eof_message) s)
  | user_input :: stdin' =>
      if is_exit user_input then (Left, stdin', s)
      else
        let history_text := load_memory (chat_memory s) in
        match invoke user_input history_text (db s) with
        | (inl response, db') =>
            (* line 199 *)
            match add_message_error (HumanMessage user_input) (chat_memory s) with
            | Some error =>
                (Looping, stdin',
                 {| chat_memory := chat_memory s;
                    stdout := stdout s ++ ["Error: " ++ error];
                    db := db' |})
            | None =>
                let kept := (chat_memory s ++ [HumanMessage user_input])%list in
                (* line 200: [response['output']], then the write *)
                match response with
                | None =>
                    (Looping, stdin',
                     {| chat_memory := kept;
                        stdout := stdout s ++ ["Error: 'output'"];
                        db := db' |})
                | Some output =>
                    match add_message_error (AIMessage output) kept with
                    | Some error =>
                        (Looping, stdin',
                         {| chat_memory := kept;
                            stdout := stdout s ++ ["Error: " ++ error];
                            db := db' |})
                    | None =>
                        (* line 202 *)
                        (Looping, stdin',
                         {| chat_memory := kept ++ [AIMessage output];
                            stdout := stdout s ++ ["Agent: " ++ output];
                            db := db' |})
                    end
                end
            end
        | (inr error, db') =>
            (Looping, stdin',
             {| chat_memory := chat_memory s;
                stdout := stdout s ++ ["Error: " ++ error];
                db := db' |})
        end
  end.

(** Line 183: [while True], for [fuel] rounds at most. *)
Fixpoint chat_loop (fuel : nat) (stdin : list string) (s : session)
  : loop_status * list string * session :=
  match fuel with
  | O => (Looping, stdin, s)
  | S fuel' =>
      match round stdin s with
      | (Left, stdin', s') => (Left, stdin', s')
      | (Looping, stdin', s') => chat_loop fuel' stdin' s'
      end
  end.

(** Lines 166-205.  [now] is [int(time.time())]; [kept] is what the chat
    memory holds for the session of that name. *)
Definition run_chat_session (now : Z) (kept : list message) (fuel : nat)
           (stdin : list string) (st : store) : loop_status * list string * session :=
  let session_id := "guest_" ++ str_of_int now in
  chat_loop fuel stdin
            {| chat_memory := kept;
               stdout := ["--- Starting Chat Session (" ++ session_id ++ ") ---"];
               db := st |}.



End Chat.


(** Lines 20-37: the menu is dropped and seeded anew; the orders are
    left.  The [_id]s 1 to 4 stand for the ones the store gives. *)
Definition reset_menu (st : store) : store :=
  {| menu := seeded_menu; orders := orders st |}.

Section Program.

Context {engine : Engine} {agent : Agent}.

(** The agent writes to the store through the two tools only (lines
    100-111 give it no other). *)
Definition tools_only : Prop :=
  forall input history_text st,
    exists ops, snd (invoke input history_text st) = exec_all ops st.

(** The script from top to bottom: the set-up, then the session. *)
Definition main (now : Z) (kept : list message) (fuel : nat) (stdin : list string)
           (st : store) : loop_status * list string * session :=
  run_chat_session now kept fuel stdin (reset_menu st).

End Program.

(** An agent that orders what it is told, at time 0, with a chat memory
    that takes every message. *)
#[global] Instance ordering_agent : Agent := {
  invoke := fun input _ st =>
    match place_order 0 input st with
    | (Returned text, st') => (inl (Some text), st')
    | (Raised _, st') => (inr "the tool raised", st')
    | (Beyond, st') => (inr "not covered", st')
    end;
  load_memory := fun _ => EmptyString;
  add_message_error := fun _ _ => None
}.

(* ================================================================== *)
(** ** Threads in flight *)

Section Sweeps.

Context {engine : Engine}.

(** Every thread in turn does its next operation. *)
Fixpoint sweep (threads : list thread) (st : store) : list thread * store :=
  match threads with
  | [] => ([], st)
  | t :: rest =>
      let (t', st') := step t st in
      let (rest', st'') := sweep rest st' in
      (t' :: rest', st'')
  end.

End Sweeps.

(** A thread between its [update_one] and its [insert_one] holds a unit
    it has taken from the stock and not yet written an order for. *)
Definition taken (t : thread) : Z :=
  match t with
  | Recording _ _ => 1
  | _ => 0
  end.

Definition units_in_flight (threads : list thread) : Z :=
  fold_right (fun t n => taken t + n) 0 threads.

Definition is_calling (t : thread) : bool :=
  match t with
  | Calling _ _ => true
  | _ => false
  end.

(** The document a thread found, if it is past its lookup. *)
Definition found_by (t : thread) : option document :=
  match t with
  | Decrementing _ it | Recording _ it => Some it
  | _ => None
  end.

(** A thread past its lookup holds a document of the menu, by [_id],
    with a name and a price. *)
Definition thread_ok (ids : list N) (t : thread) : Prop :=
  match found_by t with
  | Some it => In (_id it) ids /\ item it <> None /\ price it <> None
  | None => True
  end.

(* ================================================================== *)
(** ** The search tool

    What follows holds whatever the engine does with a pattern. *)

Section ToolFacts.

Context {engine : Engine}.

Lemma find_reads (q : filter) (st : store) : snd (find q st) = st.
Proof. unfold find. destruct (compile_filter q); reflexivity. Qed.

Lemma select_reads (query : string) (st : store) : snd (select query st) = st.
Proof. unfold select. destruct (_ || _)%bool; apply find_reads. Qed.

(** The search writes to no collection, whatever it returns or raises. *)
Lemma check_menu_reads (query : string) (st : store) :
  snd (check_menu query st) = st.
Proof.
  unfold check_menu, bind, lift, ret.
  pose proof (select_reads query st) as Hs.
  destruct (select query st) as [[cursor| |] st']; simpl in Hs; subst; try reflexivity.
  destruct (render_loop cursor []) as [response| |]; try reflexivity.
  destruct (is_nil response); reflexivity.
Qed.

Lemma as_strings_all (l : list scalar) :
  forallb is_str l = true -> as_strings l = Returned (flat_map strings_of l).
Proof.
  induction l as [|[n|s] l IH]; simpl; intros H; try discriminate; [reflexivity|].
  now rewrite (IH H).
Qed.

Lemma render_line_well_typed (doc : document) :
  well_typed doc = true -> render_line doc = Returned (result_line doc).
Proof.
  unfold well_typed. intros H. apply andb_prop in H as [Hstock Htags].
  unfold render_line, result_line, availability, stock_of, tag_strings, field_strings,
    join_tags.
  destruct (stock doc) as [[k|s]|]; try discriminate; simpl;
    (destruct (tags doc) as [l|]; simpl; [rewrite (as_strings_all l Htags)|]; reflexivity).
Qed.

Lemma render_loop_well_typed (cursor : list document) :
  forallb well_typed cursor = true ->
  forall response,
    render_loop cursor response = Returned (response ++ map result_line cursor)%list.
Proof.
  induction cursor as [|doc cursor IH]; simpl; intros H response.
  - now rewrite app_nil_r.
  - apply andb_prop in H as [Hdoc H].
    rewrite (render_line_well_typed doc Hdoc), (IH H), <- app_assoc. reflexivity.
Qed.

Lemma check_menu_text (query : string) (st : store) (cursor : list document) :
  fst (select query st) = Returned cursor ->
  forallb well_typed cursor = true ->
  check_menu query st = (Returned (result_text cursor), st).
Proof.
  intros Hsel Hwt. unfold check_menu, bind, lift, ret.
  pose proof (select_reads query st) as Hs.
  destruct (select query st) as [o st']; simpl in Hsel, Hs; subst.
  rewrite (render_loop_well_typed cursor Hwt). simpl.
  unfold result_text. destruct cursor; reflexivity.
Qed.

Lemma filter_all_true {A : Type} (l : list A) : List.filter (fun _ => true) l = l.
Proof. induction l as [|a l IH]; simpl; [|rewrite IH]; reflexivity. Qed.

Lemma select_everything (query : string) (st : store) :
  query = EmptyString \/ py_lower query = "menu" ->
  select query st = (Returned (menu st), st).
Proof.
  intros H. unfold select.
  assert (Hb : (String.eqb query EmptyString
                || String.eqb (py_lower query) "menu")%bool = true).
  { destruct H as [-> | ->]; [reflexivity|].
    rewrite String.eqb_refl. apply orb_true_r. }
  rewrite Hb. unfold find. simpl.
  now rewrite filter_all_true.
Qed.

(* ================================================================== *)
(** ** The order tool *)

Lemma find_one_reads (q : filter) (st : store) : snd (find_one q st) = st.
Proof. unfold find_one. destruct (compile_filter q); reflexivity. Qed.

Lemma find_one_some (q : filter) (st : store) (it : document) :
  fst (find_one q st) = Returned (Some it) ->
  exists p, compile_filter q = Accepted p /\ List.find p (menu st) = Some it.
Proof.
  unfold find_one. destruct (compile_filter q) as [p| |]; simpl; try discriminate.
  intros H. injection H as H. now exists p.
Qed.

(** Name the outcome [o] of the lookup of line 79, which leaves the store
    as it was; [E] records it. *)
Ltac open_lookup item_name st o E :=
  let Hs := fresh "Hs" in
  let st' := fresh "st'" in
  pose proof (find_one_reads (exact_match item_name) st) as Hs;
  destruct (find_one (exact_match item_name) st) as [o st'] eqn:E;
  simpl in Hs; subst st'.

Lemma find_split {A : Type} (p : A -> bool) (l : list A) (a : A) :
  List.find p l = Some a ->
  exists before after,
    l = (before ++ a :: after)%list /\ p a = true /\ forallb (fun x => negb (p x)) before = true.
Proof.
  induction l as [|x l IH]; simpl; [discriminate|].
  destruct (p x) eqn:Hx.
  - intros H. injection H as ->. exists [], l. now repeat split.
  - intros H. destruct (IH H) as (before & after & -> & Ha & Hb).
    exists (x :: before), after. simpl. rewrite Hx. now repeat split.
Qed.

(** The lookup of line 79 only finds documents whose name is a string. *)
Lemma exact_match_named (item_name : string) (st : store) (it : document) :
  fst (find_one (exact_match item_name) st) = Returned (Some it) ->
  exists nm, item it = Some (SStr nm).
Proof.
  intros H. apply find_one_some in H as (p & Hp & Hfind).
  apply find_some in Hfind as [_ Hit].
  unfold exact_match in Hp. simpl in Hp.
  destruct (compile_pattern _) as [test| |]; try discriminate.
  injection Hp as <-. unfold field_strings in Hit.
  destruct (item it) as [[n|s]|]; simpl in Hit; try discriminate.
  now exists s.
Qed.

Lemma update_first_unique (delta : Z) (it : document) (k : Z)
      (before after : list document) :
  NoDup (map _id (before ++ it :: after)) ->
  stock it = Some (SInt k) ->
  update_first (_id it) delta (before ++ it :: after)
  = Returned (before ++ with_stock it (SInt (k + delta)) :: after)%list.
Proof.
  intros Hnd Hk. induction before as [|x before IH]; simpl in *.
  - rewrite N.eqb_refl. unfold inc_stock. now rewrite Hk.
  - inversion Hnd as [|? ? Hx Hnd']; subst.
    destruct (N.eqb (_id x) (_id it)) eqn:E.
    + apply N.eqb_eq in E. exfalso. apply Hx. rewrite E, map_app. simpl.
      apply in_or_app. right. now left.
    + now rewrite (IH Hnd').
Qed.

Lemma place_order_not_found (now : Z) (item_name : string) (st : store) :
  fst (find_one (exact_match item_name) st) = Returned None ->
  place_order now item_name st = (Returned (not_on_menu item_name), st).
Proof.
  intros H. unfold place_order, bind.
  open_lookup item_name st o E. simpl in H. subst o. reflexivity.
Qed.

Lemma place_order_out_of_stock (now : Z) (item_name : string) (st : store)
      (it : document) (k : Z) :
  fst (find_one (exact_match item_name) st) = Returned (Some it) ->
  stock it = Some (SInt k) -> k <= 0 ->
  exists nm, item it = Some (SStr nm)
    /\ place_order now item_name st = (Returned (out_of_stock (SStr nm)), st).
Proof.
  intros H Hk Hle. destruct (exact_match_named _ _ _ H) as [nm Hnm].
  exists nm. split; [exact Hnm|].
  unfold place_order, bind.
  open_lookup item_name st o E. simpl in H. subst o.
  rewrite Hk, Hnm. simpl. apply Z.leb_le in Hle. rewrite Hle. reflexivity.
Qed.

(** The branch of lines 86-97 for every engine: when the lookup finds an
    item whose stock is a positive integer and which has a price, the
    call confirms the order, the menu is the menu before but for the
    stock of the item found, which is one lower, and one order is
    appended. *)
Lemma place_order_found_in_stock (now : Z) (item_name : string) (st : store)
      (it : document) (k : Z) (p : scalar) :
  unique_ids st ->
  fst (find_one (exact_match item_name) st) = Returned (Some it) ->
  stock it = Some (SInt k) -> 0 < k ->
  price it = Some p ->
  exists nm before after,
    item it = Some (SStr nm)
    /\ menu st = (before ++ it :: after)%list
    /\ place_order now item_name st
       = (Returned ("SUCCESS: Ordered " ++ nm ++ ". It will arrive in 30 mins."),
          {| menu := before
                     ++ {| _id := _id it; item := item it; price := price it;
                           tags := tags it; stock := Some (SInt (k - 1)) |} :: after;
             orders := orders st ++ [ {| order_item := SStr nm; order_price := p;
                                         status := "kitchen_preparing";
                                         timestamp := now |} ] |}).
Proof.
  intros Hnd H Hk Hpos Hp. destruct (exact_match_named _ _ _ H) as [nm Hnm].
  destruct (find_one_some _ _ _ H) as (f & Hf & Hfind).
  destruct (find_split _ _ _ Hfind) as (before & after & Hmenu & _ & _).
  exists nm, before, after. split; [exact Hnm|]. split; [exact Hmenu|].
  unfold place_order, bind.
  open_lookup item_name st o E. simpl in H. subst o.
  rewrite Hk, Hnm, Hp. simpl.
  assert (Hle : (k <=? 0) = false) by (apply Z.leb_gt; exact Hpos).
  rewrite Hle. unfold update_one_inc_stock. unfold unique_ids in Hnd.
  rewrite Hmenu in Hnd |- *. rewrite (update_first_unique (-1) it k before after Hnd Hk).
  unfold with_stock. rewrite Hnm, Hp. reflexivity.
Qed.

(** The only text of [place_order] that begins with ["SUCCESS:"] is the
    one of an order placed: the lookup found an item with a positive
    stock and a price. *)
Lemma place_order_success_only (now : Z) (item_name : string) (st : store)
      (text : string) :
  fst (place_order now item_name st) = Returned text ->
  startswith "SUCCESS:" text = true ->
  exists it k p,
    fst (find_one (exact_match item_name) st) = Returned (Some it)
    /\ stock it = Some (SInt k) /\ 0 < k /\ price it = Some p.
Proof.
  unfold place_order, bind. open_lookup item_name st o E.
  destruct o as [[it|]| |]; simpl; try discriminate.
  - destruct (stock it) as [[k|s]|] eqn:Hk; simpl; try discriminate.
    destruct (k <=? 0) eqn:Hle; simpl.
    + destruct (item it); simpl; try discriminate.
      intros H. injection H as <-. discriminate.
    + apply Z.leb_gt in Hle. unfold update_one_inc_stock.
      destruct (update_first (_id it) (-1) (menu st)); simpl; try discriminate.
      destruct (item it); simpl; try discriminate.
      destruct (price it) as [p|] eqn:Hp; simpl; try discriminate.
      intros _ _. now exists it, k, p.
  - intros H. injection H as <-. discriminate.
Qed.

(** A thread left alone does what the call does: its three operations,
    one after the other, give the result and the store of
    [place_order]. *)
Lemma thread_alone (now : Z) (item_name : string) (st : store) :
  interleave [0; 0; 0]%nat [Calling now item_name] st
  = ([Finished (fst (place_order now item_name st))],
     snd (place_order now item_name st)).
Proof.
  unfold place_order, bind. cbn [interleave nth_error step].
  open_lookup item_name st o E.
  destruct o as [[it|]| |]; try reflexivity.
  unfold bind, lift.
  destruct (stock it) as [[k|s]|]; try reflexivity. cbn [getitem py_le0].
  destruct (k <=? 0).
  - unfold finish. destruct (item it); reflexivity.
  - cbn [set_nth interleave nth_error step].
    unfold update_one_inc_stock.
    destruct (update_first (_id it) (-1) (menu st)) as [docs| |]; reflexivity.
Qed.

(* ================================================================== *)
(** ** The stock over a run of calls *)

Lemma place_order_effect (now : Z) (item_name : string) (st : store) :
  unique_ids st ->
  menu (snd (place_order now item_name st)) = menu st
  \/ decremented (menu st) (menu (snd (place_order now item_name st))).
Proof.
  intros Hnd. unfold place_order, bind.
  open_lookup item_name st o E.
  destruct o as [[it|]| |]; try (left; reflexivity).
  assert (H : fst (find_one (exact_match item_name) st) = Returned (Some it))
    by now rewrite E.
  destruct (find_one_some _ _ _ H) as (f & Hf & Hfind).
  destruct (find_split _ _ _ Hfind) as (before & after & Hmenu & _ & _).
  destruct (stock it) as [[k|s]|] eqn:Hk; simpl; try (left; reflexivity).
  destruct (k <=? 0) eqn:Hle; simpl.
  - destruct (item it); left; reflexivity.
  - apply Z.leb_gt in Hle. right.
    unfold update_one_inc_stock. unfold unique_ids in Hnd.
    rewrite Hmenu in Hnd |- *. rewrite (update_first_unique (-1) it k before after Hnd Hk).
    exists before, it, after, k. repeat split; try assumption.
    destruct (item it), (price it); reflexivity.
Qed.

Lemma decremented_ids (m m' : list document) :
  decremented m m' -> map _id m' = map _id m.
Proof.
  intros (before & it & after & k & -> & _ & _ & ->). now rewrite !map_app.
Qed.

Lemma decremented_nonneg (m m' : list document) :
  decremented m m' -> Forall stock_nonneg m -> Forall stock_nonneg m'.
Proof.
  intros (before & it & after & k & -> & Hk & Hpos & ->) H.
  apply Forall_app in H as [Hb Ha]. inversion Ha as [|? ? _ Ha']; subst.
  apply Forall_app. split; [exact Hb|]. constructor; [|exact Ha'].
  unfold stock_nonneg. simpl. lia.
Qed.

Lemma exec_effect (st : store) (o : op) :
  unique_ids st ->
  match o with
  | Search _ => exec st o = st
  | PlaceOrder _ _ =>
      menu (exec st o) = menu st \/ decremented (menu st) (menu (exec st o))
  end.
Proof.
  intros Hnd. destruct o as [query | now item_name]; unfold exec, call.
  - apply check_menu_reads.
  - now apply place_order_effect.
Qed.

Lemma exec_preserves (st : store) (o : op) :
  unique_ids st -> stocks_nonneg st ->
  unique_ids (exec st o) /\ stocks_nonneg (exec st o).
Proof.
  intros Hnd Hinv. pose proof (exec_effect st o Hnd) as H.
  unfold unique_ids, stocks_nonneg in *.
  destruct o as [query | now item_name].
  - now rewrite H.
  - destruct H as [H | H].
    + now rewrite H.
    + rewrite (decremented_ids _ _ H). split; [exact Hnd|].
      now apply (decremented_nonneg _ _ H).
Qed.

Lemma exec_all_preserves (ops : list op) :
  forall st, unique_ids st -> stocks_nonneg st ->
  unique_ids (exec_all ops st) /\ stocks_nonneg (exec_all ops st).
Proof.
  induction ops as [|o ops IH]; intros st Hnd Hinv; simpl; [now split|].
  destruct (exec_preserves st o Hnd Hinv) as [Hnd' Hinv']. now apply IH.
Qed.

(** C9. From a store with unique [_id]s in which every stock is at least
    0, after any sequence of searches and orders, run one after the
    other, every stock is still at least 0; and in any state so reached a
    search changes nothing, while an order either leaves the menu as it
    was or lowers by 1 the stock, which was positive, of one item. *)
Theorem stock_never_negative (st : store) (ops : list op) :
  unique_ids st -> stocks_nonneg st ->
  stocks_nonneg (exec_all ops st)
  /\ forall o,
       match o with
       | Search _ => exec (exec_all ops st) o = exec_all ops st
       | PlaceOrder _ _ =>
           menu (exec (exec_all ops st) o) = menu (exec_all ops st)
           \/ decremented (menu (exec_all ops st)) (menu (exec (exec_all ops st) o))
       end.
Proof.
  intros Hnd Hinv. destruct (exec_all_preserves ops st Hnd Hinv) as [Hnd' Hinv'].
  split; [exact Hinv'|]. intros o. now apply exec_effect.
Qed.


End ToolFacts.

(** The theorems above at work on the seeded menu. *)

Lemma stock_never_negative_witness :
  unique_ids seeded /\ stocks_nonneg seeded
  /\ stocks_nonneg
       (exec_all [PlaceOrder 1 "fruit platter"; Search "vegan"; PlaceOrder 2 "Caesar Salad"]
                 seeded).
Proof.
  assert (Hnd : unique_ids seeded).
  { unfold unique_ids. simpl. repeat constructor; simpl; intuition discriminate. }
  assert (Hinv : stocks_nonneg seeded).
  { unfold stocks_nonneg. simpl. repeat constructor; unfold stock_nonneg; simpl; lia. }
  split; [exact Hnd|]. split; [exact Hinv|].
  exact (proj1 (stock_never_negative seeded _ Hnd Hinv)).
Defined.

(* ================================================================== *)
(** ** Patterns without special characters

    On a pattern made of plain characters the [$regex] filter is a
    comparison of strings, letter case apart: a substring test when the
    pattern is used as it is (lines 50-51), an equality test, up to one
    final newline of the subject, between [^] and [$] (line 79). *)

Lemma meta_chars (c : ascii) :
  is_meta c = false ->
  Ascii.eqb c "\" = false /\ Ascii.eqb c "." = false /\ Ascii.eqb c "^" = false
  /\ Ascii.eqb c "$" = false /\ Ascii.eqb c "|" = false /\ Ascii.eqb c "(" = false
  /\ Ascii.eqb c ")" = false /\ Ascii.eqb c "*" = false /\ Ascii.eqb c "+" = false
  /\ Ascii.eqb c "?" = false.
Proof.
  unfold is_meta. simpl. intros H.
  repeat match type of H with
         | (_ || _)%bool = false => apply orb_false_elim in H as [? H]
         end.
  repeat split; assumption.
Qed.

Lemma lex_plain (s rest : list ascii) :
  forallb plain_char s = true ->
  lex (s ++ rest)
  = match lex rest with
    | Accepted ts => Accepted (map TLit s ++ ts)%list
    | Rejected => Rejected
    | Unmodelled => Unmodelled
    end.
Proof.
  induction s as [|c s IH]; simpl; intros H.
  - destruct (lex rest); reflexivity.
  - apply andb_prop in H as [Hc Hs]. unfold plain_char in Hc.
    apply andb_prop in Hc as [Hmeta Hascii].
    apply negb_true_iff in Hmeta.
    destruct (meta_chars c Hmeta) as (H1&H2&H3&H4&H5&H6&H7&H8&H9&H10).
    rewrite H1, H2, H3, H4, H5, H6, H7, H8, H9, H10, Hmeta, Hascii. simpl.
    rewrite (IH Hs). destruct (lex rest); reflexivity.
Qed.

Lemma parse_lits (s : list ascii) (ts : list token) :
  forall fr stack,
    parse (map TLit s ++ ts) fr stack
    = parse ts {| alts := alts fr; cur := (rev (lit_items s) ++ cur fr)%list |} stack.
Proof.
  induction s as [|c s IH]; intros fr stack; simpl.
  - destruct fr; reflexivity.
  - rewrite IH. unfold push. simpl. now rewrite <- app_assoc.
Qed.

Lemma lit_items_fst (s : list ascii) : map fst (lit_items s) = map Chr s.
Proof. unfold lit_items. rewrite map_map. reflexivity. Qed.

Lemma list_ascii_app (a b : string) :
  list_ascii_of_string (a ++ b) = (list_ascii_of_string a ++ list_ascii_of_string b)%list.
Proof. induction a as [|c a IH]; simpl; [|rewrite IH]; reflexivity. Qed.

(** A plain pattern compiles to the sequence of its characters. *)
Lemma compile_plain (q : string) :
  plain q = true ->
  regex_compile q = Accepted (seq_of (map Chr (list_ascii_of_string q))).
Proof.
  intros H. unfold regex_compile.
  rewrite <- (app_nil_r (list_ascii_of_string q)) at 1.
  rewrite (lex_plain _ [] H). simpl. rewrite app_nil_r.
  rewrite <- (app_nil_r (map TLit _)), parse_lits. simpl.
  unfold close, branch. simpl.
  now rewrite app_nil_r, map_rev, rev_involutive, lit_items_fst.
Qed.

(** Between [^] and [$] it compiles to that sequence between the two
    anchors. *)
Lemma compile_anchored (item_name : string) :
  plain item_name = true ->
  regex_compile ("^" ++ item_name ++ "$")
  = Accepted (seq_of (Bol :: map Chr (list_ascii_of_string item_name) ++ [Eol])).
Proof.
  intros H. unfold regex_compile.
  change ("^" ++ item_name ++ "$") with (String "^" (item_name ++ "$")).
  cbn [list_ascii_of_string]. rewrite list_ascii_app.
  cbn [lex Ascii.eqb Bool.eqb]. simpl (Ascii.eqb "^" _).
  rewrite (lex_plain _ _ H). simpl.
  rewrite parse_lits. simpl. unfold close, branch. simpl.
  rewrite !map_app, !rev_app_distr. simpl.
  now rewrite map_rev, rev_involutive, lit_items_fst.
Qed.

Lemma caseless_eqb_eq (c x : ascii) :
  caseless_eqb c x = true <-> lower_char c = lower_char x.
Proof. unfold caseless_eqb. apply Ascii.eqb_eq. Qed.

Lemma strip_prefix_spec (p s t : list ascii) :
  strip_prefix p s = Some t
  <-> exists m, s = (m ++ t)%list /\ map lower_char m = map lower_char p.
Proof.
  revert s. induction p as [|c p IH]; intros s; simpl.
  - split.
    + intros H. injection H as ->. now exists [].
    + intros (m & -> & Hm). destruct m; [reflexivity|discriminate].
  - destruct s as [|x s].
    + split; [discriminate|]. intros (m & Hs & Hm).
      destruct m; [discriminate|]. discriminate.
    + destruct (caseless_eqb c x) eqn:E.
      * apply caseless_eqb_eq in E. rewrite IH. split.
        -- intros (m & -> & Hm). exists (x :: m). simpl. now rewrite Hm, E.
        -- intros (m & Hs & Hm). destruct m as [|y m]; [discriminate|].
           simpl in *. injection Hs as -> ->. injection Hm as _ Hm. now exists m.
      * split; [discriminate|]. intros (m & Hs & Hm).
        destruct m as [|y m]; [discriminate|]. simpl in *.
        injection Hs as -> ->. injection Hm as Hy _.
        symmetry in Hy. apply caseless_eqb_eq in Hy. congruence.
Qed.

(** Matching a sequence that begins with the plain characters [p]. *)
Lemma run_lits (p : list ascii) (rs : list regex) :
  forall b s,
    run (seq_of (map Chr p ++ rs)) (b, s)
    = match strip_prefix p s with
      | Some t => run (seq_of rs) ((b && is_nil p)%bool, t)
      | None => []
      end.
Proof.
  induction p as [|c p IH]; intros b s.
  - simpl. now rewrite andb_true_r.
  - cbn [map app seq_of fold_right run snd strip_prefix].
    destruct s as [|x s]; [reflexivity|].
    destruct (caseless_eqb c x); [|reflexivity].
    cbn [flat_map]. rewrite app_nil_r. fold (seq_of (map Chr p ++ rs)).
    rewrite IH. simpl. now rewrite andb_false_r.
Qed.

Lemma flat_map_unit {A : Type} (l : list A) : flat_map (fun a => [a]) l = l.
Proof. induction l as [|a l IH]; simpl; [|rewrite IH]; reflexivity. Qed.

Lemma lits_found (p : list ascii) (b : bool) (t : list ascii) :
  negb (is_nil (run (seq_of (map Chr p)) (b, t)))
  = match strip_prefix p t with Some _ => true | None => false end.
Proof.
  rewrite <- (app_nil_r (map Chr p)), run_lits.
  destruct (strip_prefix p t); reflexivity.
Qed.

Lemma starts_existsb (f : pos -> bool) (g : list ascii -> bool) :
  (forall b t, f (b, t) = g t) ->
  forall s b,
    existsb f (starts b s) = true <-> exists pre t, s = (pre ++ t)%list /\ g t = true.
Proof.
  intros Hfg. induction s as [|x s IH]; intros b.
  - simpl. rewrite Hfg, orb_false_r. split.
    + intros H. now exists [], [].
    + intros (pre & t & Hs & H). symmetry in Hs. apply app_eq_nil in Hs as [_ ->].
      exact H.
  - cbn [starts existsb]. rewrite orb_true_iff, Hfg, IH. split.
    + intros [H | (pre & t & -> & H)].
      * now exists [], (x :: s).
      * now exists (x :: pre), t.
    + intros (pre & t & Hs & H). destruct pre as [|y pre].
      * left. simpl in Hs. now subst t.
      * right. simpl in Hs. injection Hs as -> ->. now exists pre, t.
Qed.

(** A plain pattern is found in a subject exactly where it occurs,
    letter case apart. *)
Lemma search_lits (p s : list ascii) :
  existsb (fun q => negb (is_nil (run (seq_of (map Chr p)) q))) (starts true s) = true
  <-> exists pre m post,
        s = (pre ++ m ++ post)%list /\ map lower_char m = map lower_char p.
Proof.
  rewrite (starts_existsb _
             (fun t => match strip_prefix p t with Some _ => true | None => false end)
             (lits_found p)).
  split.
  - intros (pre & t & -> & H). destruct (strip_prefix p t) as [u|] eqn:E; [|discriminate].
    apply strip_prefix_spec in E as (m & -> & Hm). now exists pre, m, u.
  - intros (pre & m & post & -> & Hm). exists pre, (m ++ post)%list. split; [reflexivity|].
    assert (E : strip_prefix p (m ++ post) = Some post)
      by (apply strip_prefix_spec; now exists m).
    now rewrite E.
Qed.

Lemma starts_after_first (r : regex) (s : list ascii) :
  existsb (fun q => negb (is_nil (run (Seq Bol r) q))) (starts false s) = false.
Proof. induction s as [|x s IH]; simpl; [reflexivity|exact IH]. Qed.

(** Between [^] and [$] a plain pattern is found exactly when it is the
    whole subject, or the whole subject but a final newline. *)
Lemma search_anchored (p s : list ascii) :
  existsb (fun q => negb (is_nil (run (seq_of (Bol :: map Chr p ++ [Eol])) q)))
          (starts true s)
  = match strip_prefix p s with Some t => at_end t | None => false end.
Proof.
  assert (Hfirst : negb (is_nil (run (seq_of (Bol :: map Chr p ++ [Eol])) (true, s)))
                   = match strip_prefix p s with Some t => at_end t | None => false end).
  { cbn [seq_of fold_right run fst flat_map]. rewrite app_nil_r.
    fold (seq_of (map Chr p ++ [Eol])). rewrite run_lits.
    destruct (strip_prefix p s) as [t|]; [|reflexivity].
    cbn [seq_of fold_right run snd].
    destruct t as [|x [|y t]]; try reflexivity.
    unfold at_end. destruct (Ascii.eqb x newline); reflexivity. }
  destruct s as [|x s]; cbn [starts existsb].
  - now rewrite orb_false_r.
  - rewrite Hfirst.
    change (seq_of (Bol :: map Chr p ++ [Eol]))
      with (Seq Bol (seq_of (map Chr p ++ [Eol]))).
    now rewrite starts_after_first, orb_false_r.
Qed.

Lemma py_lower_list (s : string) :
  list_ascii_of_string (py_lower s) = map lower_char (list_ascii_of_string s).
Proof. induction s as [|c s IH]; simpl; [|rewrite IH]; reflexivity. Qed.

Lemma string_list_eq (a b : string) :
  list_ascii_of_string a = list_ascii_of_string b -> a = b.
Proof.
  intros H. rewrite <- (string_of_list_ascii_of_string a),
              <- (string_of_list_ascii_of_string b).
  now rewrite H.
Qed.

Lemma ci_substring_list (q s : string) :
  ci_substring q s
  <-> exists pre m post,
        list_ascii_of_string s = (pre ++ m ++ post)%list
        /\ map lower_char m = map lower_char (list_ascii_of_string q).
Proof.
  unfold ci_substring. split.
  - intros (before & after & H).
    apply (f_equal list_ascii_of_string) in H.
    rewrite !list_ascii_app, !py_lower_list in H.
    apply map_eq_app in H as (pre & rest & Hs & Hpre & Hrest).
    apply map_eq_app in Hrest as (m & post & -> & Hm & Hpost).
    now exists pre, m, post.
  - intros (pre & m & post & Hs & Hm).
    exists (string_of_list_ascii (map lower_char pre)),
           (string_of_list_ascii (map lower_char post)).
    apply string_list_eq.
    rewrite !list_ascii_app, !py_lower_list, !list_ascii_of_string_of_list_ascii.
    now rewrite Hs, !map_app, Hm.
Qed.

Lemma ci_occurs_from_spec (q s : list ascii) :
  ci_occurs_from q s = true
  <-> exists pre m post, s = (pre ++ m ++ post)%list /\ map lower_char m = map lower_char q.
Proof.
  induction s as [|x s IH]; cbn [ci_occurs_from].
  - destruct (strip_prefix q []) as [t|] eqn:E.
    + apply strip_prefix_spec in E as (m & Hs & Hm). split; [|reflexivity].
      intros _. now exists [], m, t.
    + split; [discriminate|]. intros (pre & m & post & Hs & Hm).
      symmetry in Hs. apply app_eq_nil in Hs as [-> Hs]. apply app_eq_nil in Hs as [-> ->].
      assert (E' : strip_prefix q [] = Some []) by (apply strip_prefix_spec; now exists []).
      congruence.
  - destruct (strip_prefix q (x :: s)) as [t|] eqn:E.
    + apply strip_prefix_spec in E as (m & Hs & Hm). split; [|reflexivity].
      intros _. now exists [], m, t.
    + rewrite IH. split.
      * intros (pre & m & post & -> & Hm). now exists (x :: pre), m, post.
      * intros (pre & m & post & Hs & Hm). destruct pre as [|y pre].
        -- assert (E' : strip_prefix q (x :: s) = Some post)
             by (apply strip_prefix_spec; now exists m).
           congruence.
        -- simpl in Hs. injection Hs as -> ->. now exists pre, m, post.
Qed.

Lemma ci_occurs_spec (q s : string) : ci_occurs q s = true <-> ci_substring q s.
Proof. unfold ci_occurs. now rewrite ci_occurs_from_spec, ci_substring_list. Qed.

(** Lines 50-51 on a plain query: the [$regex] filter is the substring
    test. *)
Lemma regex_plain (q : string) :
  plain q = true ->
  exists test, compile_pattern q = Accepted test
               /\ forall s, test s = ci_occurs q s.
Proof.
  intros H. unfold compile_pattern, pcre_fragment. rewrite (compile_plain q H).
  eexists. split; [reflexivity|].
  intros s. apply eq_iff_eq_true. unfold regex_search.
  now rewrite search_lits, ci_occurs_spec, ci_substring_list.
Qed.

Lemma lower_char_newline (x : ascii) : lower_char x = newline -> x = newline.
Proof.
  destruct x as [[] [] [] [] [] [] [] []]; vm_compute; intros H;
    first [reflexivity | discriminate H].
Qed.

Lemma anchored_found (p : list ascii) (s name : string) :
  p = list_ascii_of_string name ->
  match strip_prefix p (list_ascii_of_string s) with
  | Some t => at_end t
  | None => false
  end = (ci_equal s name || String.eqb (py_lower s) (py_lower name ++ nl))%bool.
Proof.
  intros ->. apply eq_iff_eq_true.
  unfold ci_equal. rewrite orb_true_iff, !String.eqb_eq. split.
  - destruct (strip_prefix _ _) as [t|] eqn:E; [|discriminate].
    apply strip_prefix_spec in E as (m & Hs & Hm).
    destruct t as [|x [|y t]]; simpl; try discriminate.
    + intros _. left. apply string_list_eq.
      now rewrite !py_lower_list, Hs, app_nil_r.
    + intros Hx. apply Ascii.eqb_eq in Hx. subst x. right. apply string_list_eq.
      now rewrite list_ascii_app, !py_lower_list, Hs, map_app, Hm.
  - intros [H | H]; apply (f_equal list_ascii_of_string) in H.
    + rewrite !py_lower_list in H.
      assert (E : strip_prefix (list_ascii_of_string name) (list_ascii_of_string s)
                  = Some []).
      { apply strip_prefix_spec. exists (list_ascii_of_string s).
        now rewrite app_nil_r. }
      now rewrite E.
    + rewrite list_ascii_app, !py_lower_list in H.
      apply map_eq_app in H as (m & m2 & Hs & Hm & Hm2).
      destruct m2 as [|x [|y m2]]; try discriminate.
      simpl in Hm2. injection Hm2 as Hx. apply lower_char_newline in Hx. subst x.
      assert (E : strip_prefix (list_ascii_of_string name) (list_ascii_of_string s)
                  = Some [newline]).
      { apply strip_prefix_spec. now exists m. }
      rewrite E. reflexivity.
Qed.

(** Line 79 on a plain name: the [$regex] filter is the whole-string
    comparison, letter case apart, a final newline of the stored name not
    counting. *)
Lemma regex_anchored (item_name : string) :
  plain item_name = true ->
  exists test,
    compile_pattern ("^" ++ item_name ++ "$") = Accepted test
    /\ forall s, test s
                 = (ci_equal s item_name
                    || String.eqb (py_lower s) (py_lower item_name ++ nl))%bool.
Proof.
  intros H. unfold compile_pattern, pcre_fragment.
  rewrite (compile_anchored item_name H).
  eexists. split; [reflexivity|].
  intros s. unfold regex_search. rewrite search_anchored.
  now apply anchored_found.
Qed.

Lemma existsb_ext {A : Type} (f g : A -> bool) (l : list A) :
  (forall a, f a = g a) -> existsb f l = existsb g l.
Proof. intros H. induction l as [|a l IH]; simpl; [|rewrite H, IH]; reflexivity. Qed.

(** The search for a plain query, other than the empty query and ["menu"], yields
    the documents that have the query in their name or in a tag, letter
    case apart, in the order of the collection. *)
Lemma select_plain (query : string) (st : store) :
  plain query = true ->
  query <> EmptyString -> py_lower query <> "menu" ->
  select query st = (Returned (List.filter (mentions query) (menu st)), st).
Proof.
  intros Hplain Hne Hmenu. unfold select.
  apply String.eqb_neq in Hne, Hmenu. rewrite Hne, Hmenu. simpl.
  destruct (regex_plain query Hplain) as (r & Hr & Hsearch).
  unfold find. simpl. rewrite Hr. f_equal. f_equal.
  apply filter_ext. intros doc. unfold mentions.
  now rewrite !(existsb_ext _ _ _ Hsearch).
Qed.

(** The lookup of an order for a plain name finds the first document, in
    the order of the collection, that has this name. *)
Lemma lookup_plain (item_name : string) (st : store) :
  plain item_name = true ->
  find_one (exact_match item_name) st
  = (Returned (List.find (named item_name) (menu st)), st).
Proof.
  intros Hplain. destruct (regex_anchored item_name Hplain) as (r & Hr & Hsearch).
  unfold find_one, exact_match, compile_filter. rewrite Hr. f_equal. f_equal.
  induction (menu st) as [|doc l IH]; [reflexivity|].
  cbn [List.find]. unfold named at 1. rewrite (existsb_ext _ _ _ Hsearch), IH.
  reflexivity.
Qed.

Lemma place_order_out_of_stock_plain (now : Z) (item_name : string) (st : store)
      (it : document) (k : Z) :
  plain item_name = true ->
  List.find (named item_name) (menu st) = Some it ->
  stock it = Some (SInt k) -> k <= 0 ->
  exists nm, item it = Some (SStr nm)
    /\ place_order now item_name st = (Returned (out_of_stock (SStr nm)), st).
Proof.
  intros Hplain Hfind Hk Hle. apply (place_order_out_of_stock now item_name st it k).
  - rewrite (lookup_plain item_name st Hplain). simpl. now rewrite Hfind.
  - exact Hk.
  - exact Hle.
Qed.

Lemma place_order_not_found_plain (now : Z) (item_name : string) (st : store) :
  plain item_name = true ->
  List.find (named item_name) (menu st) = None ->
  place_order now item_name st = (Returned (not_on_menu item_name), st).
Proof.
  intros Hplain Hfind. apply place_order_not_found.
  rewrite (lookup_plain item_name st Hplain). simpl. now rewrite Hfind.
Qed.

(* ================================================================== *)
(** ** Two calls for the last unit *)

(** C1. The check of the stock (lines 79-84) and the decrement (line 87)
    are two operations of the store, and another call can run between
    them.  With one Fruit Platter left and two calls for it: run one
    after the other, one call succeeds, the other is told the item is
    out of stock, the stock ends at 0 and one order is written; run with
    their operations alternating, both calls succeed, the stock ends at
    -1 and two orders are written. *)
Theorem place_order_race :
  let calls := [Calling 1 "Fruit Platter"; Calling 2 "Fruit Platter"] in
  let platter (t : Z) :=
    {| order_item := SStr "Fruit Platter"; order_price := SInt 10;
       status := "kitchen_preparing"; timestamp := t |} in
  interleave [0; 0; 0; 1; 1; 1]%nat calls last_platter
  = ([Finished (Returned "SUCCESS: Ordered Fruit Platter. It will arrive in 30 mins.");
      Finished (Returned "Sorry, Fruit Platter is currently out of stock.")],
     {| menu := [with_stock fruit_platter (SInt 0)]; orders := [platter 1] |})
  /\ interleave [0; 1; 0; 1; 0; 1]%nat calls last_platter
     = ([Finished (Returned "SUCCESS: Ordered Fruit Platter. It will arrive in 30 mins.");
         Finished (Returned "SUCCESS: Ordered Fruit Platter. It will arrive in 30 mins.")],
        {| menu := [with_stock fruit_platter (SInt (-1))];
           orders := [platter 1; platter 2] |}).
Proof. split; vm_compute; reflexivity. Qed.

(* ================================================================== *)
(** ** Names and queries with pattern characters

    Lines 50, 51 and 79 hand the text they are given to [$regex] as it
    is.  The statements below run the tools where that text is a
    pattern of its own. *)

(** C2. On the seeded menu the call for ["fruit platter"] does what a
    successful order should: it returns a text that begins with
    ["SUCCESS:"], the stock of the Fruit Platter goes from 20 to 19, and
    one order is appended with the name and the price of the item, the
    status ["kitchen_preparing"] and the time of the call.  An item whose
    name has pattern characters in it is not served so: with
    ["Pasta V"] (stock 3, price 9) before ["Pasta (V)"] (stock 4, price
    11), the call for ["Pasta (V)"] succeeds, but the stock of
    ["Pasta (V)"] stays at 4, the stock of ["Pasta V"] goes to 2, and the
    order holds the name and the price of ["Pasta V"]. *)
Theorem place_order_serves_other_item :
  place_order 7 "fruit platter" seeded
  = (Returned "SUCCESS: Ordered Fruit Platter. It will arrive in 30 mins.",
     {| menu := [club_sandwich; buddha_bowl; caesar_salad;
                 {| _id := 4; item := Some (SStr "Fruit Platter"); price := Some (SInt 10);
                    tags := Some [SStr "vegan"; SStr "gluten_free"];
                    stock := Some (SInt 19) |}];
        orders := [ {| order_item := SStr "Fruit Platter"; order_price := SInt 10;
                       status := "kitchen_preparing"; timestamp := 7 |} ] |})
  /\ String.prefix "SUCCESS:" "SUCCESS: Ordered Fruit Platter. It will arrive in 30 mins."
     = true
  /\ List.find (named "Pasta (V)") [pasta_v; pasta_veg_stocked] = Some pasta_veg_stocked
  /\ stock pasta_veg_stocked = Some (SInt 4)
  /\ place_order 1 "Pasta (V)" {| menu := [pasta_v; pasta_veg_stocked]; orders := [] |}
     = (Returned "SUCCESS: Ordered Pasta V. It will arrive in 30 mins.",
        {| menu := [ {| _id := 1; item := Some (SStr "Pasta V"); price := Some (SInt 9);
                        tags := Some [SStr "vegan"]; stock := Some (SInt 2) |};
                     {| _id := 2; item := Some (SStr "Pasta (V)"); price := Some (SInt 11);
                        tags := Some [SStr "vegetarian"]; stock := Some (SInt 4) |} ];
           orders := [ {| order_item := SStr "Pasta V"; order_price := SInt 9;
                          status := "kitchen_preparing"; timestamp := 1 |} ] |}).
Proof. repeat split; vm_compute; reflexivity. Qed.

(** C3. An item whose name has pattern characters in it is not looked up
    by its name.  With ["Pasta V"] (stock 3) before ["Pasta (V)"]
    (stock 0) on the menu, the whole-string comparison finds
    ["Pasta (V)"], which is out of stock, but the call for ["Pasta (V)"]
    orders ["Pasta V"]: it returns a success, lowers that stock and
    writes an order. *)
Theorem place_order_out_of_stock_missed :
  let st := {| menu := [pasta_v; pasta_veg]; orders := [] |} in
  List.find (named "Pasta (V)") (menu st) = Some pasta_veg
  /\ stock pasta_veg = Some (SInt 0)
  /\ place_order 1 "Pasta (V)" st
     = (Returned "SUCCESS: Ordered Pasta V. It will arrive in 30 mins.",
        {| menu := [with_stock pasta_v (SInt 2); pasta_veg];
           orders := [ {| order_item := SStr "Pasta V"; order_price := SInt 9;
                          status := "kitchen_preparing"; timestamp := 1 |} ] |}).
Proof. repeat split; vm_compute; reflexivity. Qed.

(** C4. A name that is on no item of the seeded menu, ["Club.Sandwich"],
    is not refused: the dot stands for any character, the call orders
    the Club Sandwich, lowers its stock and writes an order.  The name
    ["("] is no pattern at all and the call raises. *)
Theorem place_order_not_found_missed :
  List.find (named "Club.Sandwich") seeded_menu = None
  /\ place_order 1 "Club.Sandwich" seeded
     = (Returned "SUCCESS: Ordered Club Sandwich. It will arrive in 30 mins.",
        {| menu := [with_stock club_sandwich (SInt 9); buddha_bowl; caesar_salad;
                    fruit_platter];
           orders := [ {| order_item := SStr "Club Sandwich"; order_price := SInt 15;
                          status := "kitchen_preparing"; timestamp := 1 |} ] |})
  /\ List.find (named "(") seeded_menu = None
  /\ place_order 1 "(" seeded = (Raised OperationFailure, seeded).
Proof. repeat split; vm_compute; reflexivity. Qed.

(** C5. The scenario holds: with the Fruit Platter (price 10, stock 20)
    alone on the menu, the call for ["fruit platter"] succeeds, leaves
    the stock at 19 and writes one order of price 10.  The lookup is not
    the whole-string comparison on every name: the only item of a menu,
    ["Soup (V)"], in stock, is not found under its own name, and
    ["Fruit.Platter"], the name of no item, is found. *)
Theorem place_order_lookup_not_exact :
  place_order 1 "fruit platter" one_platter
  = (Returned "SUCCESS: Ordered Fruit Platter. It will arrive in 30 mins.",
     {| menu := [with_stock fruit_platter (SInt 19)];
        orders := [ {| order_item := SStr "Fruit Platter"; order_price := SInt 10;
                       status := "kitchen_preparing"; timestamp := 1 |} ] |})
  /\ named "Soup (V)" soup_v = true
  /\ place_order 1 "Soup (V)" {| menu := [soup_v]; orders := [] |}
     = (Returned "Error: 'Soup (V)' is not on the menu. Please check the menu first.",
        {| menu := [soup_v]; orders := [] |})
  /\ named "Fruit.Platter" fruit_platter = false
  /\ fst (place_order 1 "Fruit.Platter" one_platter)
     = Returned "SUCCESS: Ordered Fruit Platter. It will arrive in 30 mins.".
Proof. repeat split; vm_compute; reflexivity. Qed.

(** C6. The search is not the substring test on every query: no item of
    the seeded menu has a dot in its name or tags, and the search for
    ["."] returns all four; the search for ["("] raises. *)
Theorem check_menu_not_substring :
  List.filter (mentions ".") seeded_menu = []
  /\ check_menu "." seeded
     = (Returned ("- Club Sandwich: Available ($15) (Tags: contains_gluten, meat)" ++ nl
                  ++ "- Vegan Buddha Bowl: Available ($18) (Tags: vegan, gluten_free, nuts)"
                  ++ nl
                  ++ "- Caesar Salad: OUT OF STOCK (Tags: vegetarian, contains_dairy)" ++ nl
                  ++ "- Fruit Platter: Available ($10) (Tags: vegan, gluten_free)"),
        seeded)
  /\ check_menu "(" seeded = (Raised OperationFailure, seeded).
Proof. repeat split; vm_compute; reflexivity. Qed.

(** C8. On the seeded menu the lines are as they should be: an item in
    stock is shown as ["Available ($price)"], the Caesar Salad, stock 0,
    as ["OUT OF STOCK"], each followed by its tags joined by [", "], and
    a search for ["pizza"], which no item has, returns the fixed text.
    No item has ["("] in its name or tags either, but the search for
    ["("] does not return the fixed text: it raises. *)
Theorem check_menu_no_match_raises :
  check_menu "vegan" seeded
  = (Returned
       (String.concat (String "010" EmptyString)
          ["- Vegan Buddha Bowl: Available ($18) (Tags: vegan, gluten_free, nuts)";
           "- Fruit Platter: Available ($10) (Tags: vegan, gluten_free)"]),
     seeded)
  /\ check_menu "SALAD" seeded
     = (Returned "- Caesar Salad: OUT OF STOCK (Tags: vegetarian, contains_dairy)", seeded)
  /\ List.filter (mentions "pizza") seeded_menu = []
  /\ check_menu "pizza" seeded = (Returned "No matching items found on the menu.", seeded)
  /\ List.filter (mentions "(") seeded_menu = []
  /\ check_menu "(" seeded = (Raised OperationFailure, seeded).
Proof. repeat split; vm_compute; reflexivity. Qed.

(* ================================================================== *)
(** ** Calls that raise *)

(** C10. The search gives a document without stock as out of stock, one
    without name as Unknown, and the price of one without price as 0.
    An order reads the fields of the document it found without a
    default: for the item without stock it raises [KeyError] and changes
    nothing; for the item without price it raises [KeyError] after the
    stock has been lowered, and writes no order.  On the seeded menu
    both tools raise for the input ["("]. *)
Theorem tools_raise :
  check_menu EmptyString patchy
  = (Returned ("- Unknown: OUT OF STOCK (Tags: )" ++ nl
               ++ "- Green Tea: Available ($0) (Tags: vegan)" ++ nl
               ++ "- Lemonade: OUT OF STOCK (Tags: vegan)"), patchy)
  /\ place_order 1 "Lemonade" patchy = (Raised (KeyError "stock"), patchy)
  /\ place_order 1 "Green Tea" patchy
     = (Raised (KeyError "price"),
        {| menu := [bare; with_stock unpriced (SInt 1); uncounted]; orders := [] |})
  /\ check_menu "(" seeded = (Raised OperationFailure, seeded)
  /\ place_order 1 "(" seeded = (Raised OperationFailure, seeded).
Proof. repeat split; vm_compute; reflexivity. Qed.

(* ================================================================== *)
(** ** What a run of calls leaves

    The statements of this part hold for every engine and, unless they
    say so, for every store. *)

(** Name the outcome [o] of the lookup of line 79 in the goal; the
    store is the one before the lookup. *)
Ltac lookup_outcome item_name st o E :=
  let Hs := fresh "Hs" in
  let st' := fresh "st'" in
  pose proof (find_one_reads (exact_match item_name) st) as Hs;
  destruct (find_one (exact_match item_name) st) as [o st'] eqn:E;
  simpl in Hs; subst st'.

Section RunFacts.

Context {engine : Engine}.

Lemma exec_all_app (ops ops' : list op) (st : store) :
  exec_all (ops ++ ops') st = exec_all ops' (exec_all ops st).
Proof. unfold exec_all. apply fold_left_app. Qed.

Lemma run_calls_store (ops : list op) :
  forall st, snd (run_calls ops st) = exec_all ops st.
Proof.
  induction ops as [|o ops IH]; intros st; simpl; [reflexivity|].
  unfold exec at 1. destruct (call o st) as [r st'] eqn:E. simpl.
  specialize (IH st'). destruct (run_calls ops st') as [rs st'']. exact IH.
Qed.

Lemma update_first_identity (id : N) (delta : Z) (docs : list document) :
  forall docs',
    update_first id delta docs = Returned docs' ->
    map identity_of docs' = map identity_of docs.
Proof.
  induction docs as [|doc rest IH]; simpl; intros docs' H.
  - now injection H as <-.
  - destruct (N.eqb (_id doc) id).
    + unfold inc_stock in H.
      destruct (stock doc) as [[k|s]|]; try discriminate; now injection H as <-.
    + destruct (update_first id delta rest) as [rest'| |]; try discriminate.
      injection H as <-. simpl. now rewrite (IH rest' eq_refl).
Qed.

(** What a call of [place_order] can leave: the store as it was, or the
    menu after the [$inc] with the orders as they were (the call has
    raised since), or that menu and one more order. *)
Lemma place_order_leaves (now : Z) (item_name : string) (st : store) :
  snd (place_order now item_name st) = st
  \/ exists it docs,
       update_first (_id it) (-1) (menu st) = Returned docs
       /\ (snd (place_order now item_name st) = {| menu := docs; orders := orders st |}
           \/ exists nm p,
                snd (place_order now item_name st)
                = {| menu := docs;
                     orders := orders st
                               ++ [ {| order_item := nm; order_price := p;
                                       status := "kitchen_preparing";
                                       timestamp := now |} ] |}).
Proof.
  unfold place_order, bind. lookup_outcome item_name st o E.
  destruct o as [[it|]| |]; try (left; reflexivity).
  destruct (stock it) as [[k|s]|]; simpl; try (left; reflexivity).
  destruct (k <=? 0); simpl.
  - destruct (item it); left; reflexivity.
  - unfold update_one_inc_stock.
    destruct (update_first (_id it) (-1) (menu st)) as [docs| |] eqn:U;
      try (left; destruct st; reflexivity).
    right. exists it, docs. split; [exact U|].
    destruct (item it) as [nm|]; simpl; [|left; reflexivity].
    destruct (price it) as [p|]; simpl; [|left; reflexivity].
    right. now exists nm, p.
Qed.

Lemma exec_identity (st : store) (o : op) :
  map identity_of (menu (exec st o)) = map identity_of (menu st).
Proof.
  destruct o as [query | now item_name]; unfold exec, call.
  - now rewrite check_menu_reads.
  - destruct (place_order_leaves now item_name st)
      as [-> | (it & docs & U & [-> | (nm & p & ->)])];
      try reflexivity; simpl; exact (update_first_identity _ _ _ _ U).
Qed.

Lemma exec_all_identity (ops : list op) :
  forall st, map identity_of (menu (exec_all ops st)) = map identity_of (menu st).
Proof.
  induction ops as [|o ops IH]; intros st; simpl; [reflexivity|].
  now rewrite IH, exec_identity.
Qed.

(** X2. Whatever calls are made, in whatever order and whether they
    return or raise, the menu keeps its documents: as many, in the same
    order, each with the [_id], name, price and tags it had.  The stock
    is the only thing the tools write in the menu. *)
Theorem menu_identity_kept (ops : list op) (st : store) :
  map identity_of (menu (exec_all ops st)) = map identity_of (menu st)
  /\ length (menu (exec_all ops st)) = length (menu st).
Proof.
  pose proof (exec_all_identity ops st) as H.
  split; [exact H|].
  apply (f_equal (@length _)) in H. now rewrite !length_map in H.
Qed.

Lemma exec_orders (st : store) (o : op) :
  exists added,
    orders (exec st o) = (orders st ++ added)%list
    /\ (length added <= (if is_order_call o then 1 else 0))%nat
    /\ Forall (fun x => status x = "kitchen_preparing") added.
Proof.
  destruct o as [query | now item_name]; unfold exec, call.
  - rewrite check_menu_reads. exists []. rewrite app_nil_r. simpl.
    split; [reflexivity|]. split; [lia|constructor].
  - destruct (place_order_leaves now item_name st)
      as [-> | (it & docs & U & [-> | (nm & p & ->)])].
    + exists []. rewrite app_nil_r. simpl.
      split; [reflexivity|]. split; [lia|constructor].
    + exists []. rewrite app_nil_r. simpl.
      split; [reflexivity|]. split; [lia|constructor].
    + eexists. split; [reflexivity|]. simpl. split; [lia|].
      constructor; [reflexivity|constructor].
Qed.

(** X1. The orders are only ever appended to: after any run of calls the
    orders there were are still there, unchanged and in front; a search
    adds none, an order call adds at most one, and every order added has
    the status ["kitchen_preparing"]. *)
Theorem orders_only_appended (ops : list op) (st : store) :
  exists added,
    orders (exec_all ops st) = (orders st ++ added)%list
    /\ (length added <= length (List.filter is_order_call ops))%nat
    /\ Forall (fun x => status x = "kitchen_preparing") added.
Proof.
  revert st. induction ops as [|o ops IH]; intros st; simpl.
  - exists []. rewrite app_nil_r. split; [reflexivity|].
    split; [apply Nat.le_refl|constructor].
  - destruct (exec_orders st o) as (a1 & H1 & L1 & F1).
    destruct (IH (exec st o)) as (a2 & H2 & L2 & F2).
    exists (a1 ++ a2)%list. rewrite H2, H1, app_assoc. split; [reflexivity|].
    rewrite length_app. split; [|now apply Forall_app].
    destruct (is_order_call o); simpl in *; lia.
Qed.

Lemma total_stock_app (m1 m2 : list document) :
  total_stock (m1 ++ m2) = total_stock m1 + total_stock m2.
Proof. induction m1 as [|d m1 IH]; simpl; [reflexivity|]. rewrite IH. ring. Qed.

Lemma decremented_total (m m' : list document) :
  decremented m m' -> total_stock m' = total_stock m - 1.
Proof.
  intros (before & it & after & k & -> & Hk & _ & ->).
  rewrite !total_stock_app. simpl. unfold stock_of. simpl. rewrite Hk. ring.
Qed.

Lemma decremented_priced (m m' : list document) :
  decremented m m' -> forallb priced m = true -> forallb priced m' = true.
Proof.
  intros (before & it & after & k & -> & _ & _ & ->).
  rewrite !forallb_app. simpl. unfold priced. simpl. auto.
Qed.

Lemma total_stock_nonneg (m : list document) :
  Forall stock_nonneg m -> 0 <= total_stock m.
Proof.
  induction 1 as [|d m Hd _ IH]; simpl; [lia|].
  unfold stock_nonneg in Hd. unfold stock_of.
  destruct (stock d) as [[k|s]|]; lia.
Qed.

(** With unique [_id]s and every item priced, a call either changes
    nothing or takes one unit from a stock and writes one order. *)
Lemma exec_accounted (st : store) (o : op) :
  unique_ids st -> forallb priced (menu st) = true ->
  exec st o = st
  \/ (decremented (menu st) (menu (exec st o))
      /\ exists x, orders (exec st o) = (orders st ++ [x])%list).
Proof.
  intros Hnd Hpr. destruct o as [query | now item_name]; unfold exec, call.
  - left. apply check_menu_reads.
  - unfold place_order, bind. lookup_outcome item_name st o E.
    destruct o as [[it|]| |]; try (left; reflexivity).
    assert (H : fst (find_one (exact_match item_name) st) = Returned (Some it))
      by now rewrite E.
    destruct (exact_match_named _ _ _ H) as [nm Hnm].
    destruct (find_one_some _ _ _ H) as (f & Hf & Hfind).
    destruct (find_split _ _ _ Hfind) as (before & after & Hmenu & _ & _).
    assert (Hp : exists p, price it = Some p).
    { rewrite Hmenu, forallb_app in Hpr. apply andb_prop in Hpr as [_ Hpr].
      simpl in Hpr. apply andb_prop in Hpr as [Hpr _]. unfold priced in Hpr.
      destruct (price it) as [p|]; [now exists p|discriminate]. }
    destruct Hp as [p Hp].
    destruct (stock it) as [[k|s]|] eqn:Hk; simpl; try (left; reflexivity).
    destruct (k <=? 0) eqn:Hle; simpl.
    + rewrite Hnm. left. reflexivity.
    + apply Z.leb_gt in Hle. right.
      unfold update_one_inc_stock. unfold unique_ids in Hnd.
      rewrite Hmenu in Hnd |- *.
      rewrite (update_first_unique (-1) it k before after Hnd Hk).
      rewrite Hnm, Hp. simpl. split.
      * exists before, it, after, k. now repeat split.
      * eexists. reflexivity.
Qed.

Lemma exec_all_accounted (ops : list op) :
  forall st,
    unique_ids st -> forallb priced (menu st) = true ->
    total_stock (menu (exec_all ops st)) + Z.of_nat (length (orders (exec_all ops st)))
    = total_stock (menu st) + Z.of_nat (length (orders st)).
Proof.
  induction ops as [|o ops IH]; intros st Hnd Hpr; simpl; [reflexivity|].
  destruct (exec_accounted st o Hnd Hpr) as [E | (Hdec & x & Hx)].
  - rewrite E. now apply IH.
  - rewrite IH.
    + rewrite (decremented_total _ _ Hdec), Hx, length_app. simpl. lia.
    + unfold unique_ids. rewrite (decremented_ids _ _ Hdec). exact Hnd.
    + exact (decremented_priced _ _ Hdec Hpr).
Qed.

(** X3. With unique [_id]s and a price on every item, the units in stock
    plus the number of orders is the same after any run of calls as
    before it: a unit leaves the stock exactly when an order is written.
    So when no stock was negative, no more orders are written than there
    were units in stock. *)
Theorem stock_accounted (ops : list op) (st : store) :
  unique_ids st -> forallb priced (menu st) = true ->
  total_stock (menu (exec_all ops st)) + Z.of_nat (length (orders (exec_all ops st)))
  = total_stock (menu st) + Z.of_nat (length (orders st))
  /\ (stocks_nonneg st ->
      Z.of_nat (length (orders (exec_all ops st))) - Z.of_nat (length (orders st))
      <= total_stock (menu st)).
Proof.
  intros Hnd Hpr. pose proof (exec_all_accounted ops st Hnd Hpr) as H.
  split; [exact H|]. intros Hinv.
  destruct (exec_all_preserves ops st Hnd Hinv) as [_ Hinv'].
  apply total_stock_nonneg in Hinv'. lia.
Qed.

Lemma as_strings_not_all (l : list scalar) :
  forallb is_str l = false -> as_strings l = Raised TypeError.
Proof.
  induction l as [|[n|s] l IH]; simpl; intros H; try discriminate; [reflexivity|].
  now rewrite (IH H).
Qed.

Lemma render_line_ill_typed (doc : document) :
  well_typed doc = false -> render_line doc = Raised TypeError.
Proof.
  unfold well_typed, render_line, join_tags. intros H.
  destruct (stock doc) as [[k|s]|]; simpl in *; try reflexivity;
    (destruct (tags doc) as [l|]; simpl in *; [|discriminate];
     now rewrite (as_strings_not_all l H)).
Qed.

Lemma render_loop_ill_typed (cursor : list document) :
  forallb well_typed cursor = false ->
  forall response, render_loop cursor response = Raised TypeError.
Proof.
  induction cursor as [|doc cursor IH]; simpl; intros H response; [discriminate|].
  destruct (well_typed doc) eqn:Hd.
  - rewrite (render_line_well_typed doc Hd). now apply IH.
  - now rewrite (render_line_ill_typed doc Hd).
Qed.

(** X5. When the cursor of a search yields a document whose stock is a
    string, or one of whose tags is not a string, the search returns no
    text: it raises [TypeError], whatever the other documents are, and
    leaves the store as it was. *)
Theorem check_menu_type_error (query : string) (st : store) (cursor : list document) :
  fst (select query st) = Returned cursor ->
  forallb well_typed cursor = false ->
  check_menu query st = (Raised TypeError, st).
Proof.
  intros Hsel Hwt. unfold check_menu, bind, lift.
  pose proof (select_reads query st) as Hs.
  destruct (select query st) as [o st']; simpl in Hsel, Hs; subst.
  now rewrite (render_loop_ill_typed cursor Hwt).
Qed.

(** The line the loop appends is the entry of the document, and the
    joined lines are the listing. *)
Lemma entry_line (doc : document) : result_line doc = entry doc.
Proof.
  unfold result_line, entry, availability, tag_strings, tag_texts, field_strings, get.
  destruct (item doc) as [[n|s]|], (price doc) as [[m|t]|]; reflexivity.
Qed.

Lemma listing_text (cursor : list document) :
  py_join nl (map result_line cursor) = listing cursor.
Proof.
  unfold listing. rewrite (map_ext _ _ entry_line). reflexivity.
Qed.

(** What a search gives, for every query and store: the entries of the
    documents of the cursor, one to a line, or the fixed text when the
    cursor is empty; [TypeError] when a document of the cursor is ill
    typed; and what the lookup raised when the store refused the
    pattern.  The store is left as it was. *)
Lemma check_menu_outcome (query : string) (st : store) :
  check_menu query st
  = (match fst (select query st) with
     | Returned cursor =>
         if forallb well_typed cursor
         then Returned (match cursor with
                        | [] => "No matching items found on the menu."
                        | _ :: _ => listing cursor
                        end)
         else Raised TypeError
     | Raised e => Raised e
     | Beyond => Beyond
     end,
     st).
Proof.
  pose proof (select_reads query st) as Hs.
  destruct (select query st) as [[cursor|e|] st'] eqn:E; simpl in Hs; subst st'.
  - assert (Hsel : fst (select query st) = Returned cursor) by now rewrite E.
    cbn [fst]. destruct (forallb well_typed cursor) eqn:Hwt.
    + rewrite (check_menu_text query st cursor Hsel Hwt).
      unfold result_text. rewrite listing_text. now destruct cursor.
    + unfold check_menu, bind, lift. rewrite E.
      now rewrite (render_loop_ill_typed cursor Hwt).
  - unfold check_menu, bind. now rewrite E.
  - unfold check_menu, bind. now rewrite E.
Qed.

(** C7. For every store, the search for the empty query and the search
    for a query that is ["menu"] letter case apart leave the menu and
    the orders as they were and return the entry of every document of
    the menu, one to a line, in the order of the collection (the fixed
    text for an empty menu); when a document is no menu item, its stock
    a string or a tag no string, the call raises [TypeError] instead.
    The order is stable: whatever calls are made, the menu keeps its
    documents in their order. *)
Theorem check_menu_everything (query : string) (st : store) :
  query = EmptyString \/ py_lower query = "menu" ->
  check_menu query st
  = (if forallb well_typed (menu st)
     then Returned (match menu st with
                    | [] => "No matching items found on the menu."
                    | _ :: _ => listing (menu st)
                    end)
     else Raised TypeError,
     st)
  /\ forall ops, map identity_of (menu (exec_all ops st)) = map identity_of (menu st).
Proof.
  intros H. split; [|intros ops; apply exec_all_identity].
  pose proof (select_everything query st H) as Hsel.
  destruct (forallb well_typed (menu st)) eqn:Hwt.
  - rewrite (check_menu_text query st (menu st)); [|now rewrite Hsel|exact Hwt].
    unfold result_text, listing. rewrite (map_ext _ _ entry_line).
    now destruct (menu st).
  - unfold check_menu, bind, lift. rewrite Hsel.
    now rewrite (render_loop_ill_typed (menu st) Hwt).
Qed.

(** X6. A text returned by [place_order] is one of three: the refusal of
    a name the lookup does not find, the refusal of an item whose stock
    is 0 or less, or the confirmation of an item with a positive stock
    and a price; and it begins with ["SUCCESS:"] in the last case only. *)
Theorem place_order_texts (now : Z) (item_name : string) (st : store) (text : string) :
  fst (place_order now item_name st) = Returned text ->
  (fst (find_one (exact_match item_name) st) = Returned None
   /\ text = "Error: '" ++ item_name ++ "' is not on the menu. Please check the menu first."
   /\ startswith "SUCCESS:" text = false)
  \/ (exists it nm k,
        fst (find_one (exact_match item_name) st) = Returned (Some it)
        /\ item it = Some (SStr nm) /\ stock it = Some (SInt k) /\ k <= 0
        /\ text = "Sorry, " ++ nm ++ " is currently out of stock."
        /\ startswith "SUCCESS:" text = false)
  \/ (exists it nm k p,
        fst (find_one (exact_match item_name) st) = Returned (Some it)
        /\ item it = Some (SStr nm) /\ stock it = Some (SInt k) /\ 0 < k
        /\ price it = Some p
        /\ text = "SUCCESS: Ordered " ++ nm ++ ". It will arrive in 30 mins."
        /\ startswith "SUCCESS:" text = true).
Proof.
  unfold place_order, bind. lookup_outcome item_name st o E.
  destruct o as [[it|]| |]; simpl; try discriminate.
  - assert (H : fst (find_one (exact_match item_name) st) = Returned (Some it))
      by now rewrite E.
    destruct (exact_match_named _ _ _ H) as [nm Hnm]. rewrite Hnm.
    destruct (stock it) as [[k|s]|] eqn:Hk; simpl; try discriminate.
    destruct (k <=? 0) eqn:Hle; simpl.
    + intros Ht. injection Ht as <-. right. left. apply Z.leb_le in Hle.
      exists it, nm, k. now repeat split.
    + apply Z.leb_gt in Hle. unfold update_one_inc_stock.
      destruct (update_first (_id it) (-1) (menu st)); simpl; try discriminate.
      destruct (price it) as [p|] eqn:Hp; simpl; try discriminate.
      intros Ht. injection Ht as <-. right. right.
      exists it, nm, k, p. now repeat split.
  - intros Ht. injection Ht as <-. left. now repeat split.
Qed.

Lemma filter_respects (q : filter) (p : document -> bool) :
  compile_filter q = Accepted p ->
  forall d d', identity_of d = identity_of d' -> p d = p d'.
Proof.
  revert p. induction q as [|f pattern|a IHa b IHb]; simpl; intros p Hp d d' Hid.
  - now injection Hp as <-.
  - destruct (compile_pattern pattern) as [test| |]; try discriminate.
    injection Hp as <-. unfold identity_of in Hid. injection Hid as _ Hi _ Ht.
    destruct f; simpl; now rewrite ?Hi, ?Ht.
  - destruct (compile_filter a) as [pa| |], (compile_filter b) as [pb| |];
      try discriminate.
    injection Hp as <-. now rewrite (IHa pa eq_refl d d' Hid), (IHb pb eq_refl d d' Hid).
Qed.

Lemma filter_same_identity (p : document -> bool) :
  (forall d d', identity_of d = identity_of d' -> p d = p d') ->
  forall l l',
    map identity_of l' = map identity_of l ->
    map identity_of (List.filter p l') = map identity_of (List.filter p l).
Proof.
  intros Hp. induction l as [|d l IH]; intros [|d' l'] H; cbn [map List.filter] in *;
    try discriminate; [reflexivity|].
  assert (Hd : identity_of d' = identity_of d) by congruence.
  assert (Hl : map identity_of l' = map identity_of l) by congruence.
  rewrite (Hp d' d Hd).
  destruct (p d); cbn [map]; [rewrite Hd|]; now rewrite (IH l' Hl).
Qed.

Lemma find_same_identity (q : filter) (st st' : store) :
  map identity_of (menu st') = map identity_of (menu st) ->
  match fst (find q st), fst (find q st') with
  | Returned c, Returned c' => map identity_of c' = map identity_of c
  | Raised e, Raised e' => e = e'
  | Beyond, Beyond => True
  | _, _ => False
  end.
Proof.
  intros H. unfold find. destruct (compile_filter q) as [p| |] eqn:Hq; simpl; trivial.
  apply filter_same_identity; [|exact H]. exact (filter_respects q p Hq).
Qed.

(** X8. Orders do not change what a search finds: after any run of
    calls, a query yields the documents with the same [_id], name, price
    and tags as before the run, in the same order, or raises as it did
    before.  Only the stock shown for them can differ. *)
Theorem search_finds_the_same (ops : list op) (query : string) (st : store) :
  match fst (select query st), fst (select query (exec_all ops st)) with
  | Returned c, Returned c' => map identity_of c' = map identity_of c
  | Raised e, Raised e' => e = e'
  | Beyond, Beyond => True
  | _, _ => False
  end.
Proof.
  pose proof (exec_all_identity ops st) as H.
  unfold select. destruct (_ || _)%bool; now apply find_same_identity.
Qed.

Lemma complete_well_typed (doc : document) :
  complete doc = true -> well_typed doc = true.
Proof.
  unfold complete, well_typed. intros H.
  apply andb_prop in H as [H Ht]. apply andb_prop in H as [Hs _].
  rewrite Ht. destruct (stock doc) as [[k|s]|]; try discriminate. reflexivity.
Qed.

Lemma with_stock_complete (doc : document) (n : Z) :
  complete doc = true -> complete (with_stock doc (SInt n)) = true.
Proof.
  unfold complete, priced. simpl. intros H.
  apply andb_prop in H as [H Ht]. apply andb_prop in H as [_ Hp].
  now rewrite Hp, Ht.
Qed.

Lemma update_first_complete (id : N) (delta : Z) (docs : list document) :
  forallb complete docs = true ->
  exists docs',
    update_first id delta docs = Returned docs' /\ forallb complete docs' = true.
Proof.
  induction docs as [|doc rest IH]; simpl; intros H.
  - now exists [].
  - apply andb_prop in H as [Hd Hr]. destruct (N.eqb (_id doc) id).
    + assert (Hs : exists k, stock doc = Some (SInt k)).
      { unfold complete in Hd. destruct (stock doc) as [[k|s]|]; try discriminate.
        now exists k. }
      destruct Hs as [k Hk]. unfold inc_stock. rewrite Hk.
      eexists. split; [reflexivity|]. simpl.
      now rewrite (with_stock_complete doc _ Hd), Hr.
    + destruct (IH Hr) as (rest' & -> & Hr'). eexists. split; [reflexivity|].
      simpl. now rewrite Hd, Hr'.
Qed.

Lemma forallb_filter {A : Type} (f p : A -> bool) (l : list A) :
  forallb f l = true -> forallb f (List.filter p l) = true.
Proof.
  induction l as [|a l IH]; simpl; [reflexivity|]. intros H.
  apply andb_prop in H as [Ha Hl]. destruct (p a); simpl; [rewrite Ha|]; now apply IH.
Qed.

Lemma forallb_impl {A : Type} (f g : A -> bool) (l : list A) :
  (forall a, f a = true -> g a = true) -> forallb f l = true -> forallb g l = true.
Proof.
  intros Hfg. induction l as [|a l IH]; simpl; [reflexivity|]. intros H.
  apply andb_prop in H as [Ha Hl]. now rewrite (Hfg a Ha), (IH Hl).
Qed.

Lemma find_outcome (q : filter) (st : store) :
  (exists p, fst (find q st) = Returned (List.filter p (menu st)))
  \/ fst (find q st) = Raised OperationFailure
  \/ fst (find q st) = Beyond.
Proof.
  unfold find. destruct (compile_filter q) as [p| |]; simpl; eauto.
Qed.

Lemma select_outcome (query : string) (st : store) :
  (exists p, fst (select query st) = Returned (List.filter p (menu st)))
  \/ fst (select query st) = Raised OperationFailure
  \/ fst (select query st) = Beyond.
Proof. unfold select. destruct (_ || _)%bool; apply find_outcome. Qed.

Lemma check_menu_no_cursor (query : string) (st : store) :
  (forall e, fst (select query st) = Raised e -> fst (check_menu query st) = Raised e)
  /\ (fst (select query st) = Beyond -> fst (check_menu query st) = Beyond).
Proof.
  unfold check_menu, bind.
  destruct (select query st) as [[cursor| |] st']; simpl; split; intros;
    try discriminate; congruence.
Qed.

Lemma find_one_raises (q : filter) (st : store) (e : exn) :
  fst (find_one q st) = Raised e -> e = OperationFailure.
Proof.
  unfold find_one. destruct (compile_filter q); simpl; try discriminate.
  intros H. now injection H as <-.
Qed.

(** On a menu of complete documents no call raises for a field that is
    missing or of the wrong type, and the menu stays complete. *)
Lemma call_complete (o : op) (st : store) :
  forallb complete (menu st) = true ->
  (forall e, fst (call o st) = Raised e -> e = OperationFailure)
  /\ forallb complete (menu (snd (call o st))) = true.
Proof.
  intros Hc. destruct o as [query | now item_name]; unfold call.
  - split; [|now rewrite check_menu_reads].
    intros e He.
    destruct (select_outcome query st) as [[p Hsel] | [Hsel | Hsel]].
    + rewrite (check_menu_text query st _ Hsel) in He; [discriminate|].
      apply forallb_filter. exact (forallb_impl _ _ _ complete_well_typed Hc).
    + rewrite (proj1 (check_menu_no_cursor query st) _ Hsel) in He.
      now injection He as <-.
    + rewrite (proj2 (check_menu_no_cursor query st) Hsel) in He. discriminate.
  - unfold place_order, bind. lookup_outcome item_name st o E.
    destruct o as [[it|]|e'|]; simpl; try (split; [discriminate|exact Hc]).
    + assert (H : fst (find_one (exact_match item_name) st) = Returned (Some it))
        by now rewrite E.
      destruct (exact_match_named _ _ _ H) as [nm Hnm].
      destruct (find_one_some _ _ _ H) as (f & Hf & Hfind).
      apply find_some in Hfind as [Hin _].
      assert (Hit : complete it = true)
        by (rewrite forallb_forall in Hc; now apply Hc).
      unfold complete, priced in Hit.
      apply andb_prop in Hit as [Hit _]. apply andb_prop in Hit as [Hs Hp].
      destruct (stock it) as [[k|s]|]; try discriminate.
      destruct (price it) as [p|]; try discriminate.
      rewrite Hnm. simpl. destruct (k <=? 0); simpl.
      * split; [discriminate|exact Hc].
      * unfold update_one_inc_stock.
        destruct (update_first_complete (_id it) (-1) (menu st) Hc) as (docs & -> & Hd).
        simpl. split; [discriminate|exact Hd].
    + split; [|exact Hc]. intros e He. injection He as <-.
      apply (find_one_raises (exact_match item_name) st). now rewrite E.
Qed.

(** X4. On a menu where every document has a price, an integer stock and
    string tags, no call of a run raises [KeyError], [TypeError] or
    [WriteError]: the tools return a text, unless the store refuses the
    pattern made of the input; and the menu stays such a menu. *)
Theorem complete_menu_no_field_error (ops : list op) (st : store) :
  forallb complete (menu st) = true ->
  Forall (fun r => forall e, r = Raised e -> e = OperationFailure) (fst (run_calls ops st))
  /\ forallb complete (menu (exec_all ops st)) = true.
Proof.
  revert st. induction ops as [|o ops IH]; intros st Hc; simpl.
  - split; [constructor|exact Hc].
  - destruct (call_complete o st Hc) as [Hr Hc']. unfold exec.
    destruct (call o st) as [r st'] eqn:E. simpl in *.
    destruct (IH st' Hc') as [Hrs Hfin].
    destruct (run_calls ops st') as [rs st'']. simpl in *.
    split; [constructor; assumption|exact Hfin].
Qed.

Lemma find_app_hit {A : Type} (p : A -> bool) (before : list A) (a : A) (after : list A) :
  forallb (fun x => negb (p x)) before = true -> p a = true ->
  List.find p (before ++ a :: after) = Some a.
Proof.
  induction before as [|x before IH]; simpl; intros Hb Ha.
  - now rewrite Ha.
  - apply andb_prop in Hb as [Hx Hb]. apply negb_true_iff in Hx. rewrite Hx.
    now apply IH.
Qed.

Lemma with_stock_same (doc : document) (v : scalar) :
  stock doc = Some v -> with_stock doc v = doc.
Proof. destruct doc; simpl; intros ->; reflexivity. Qed.

(** Calls for one item, one after the other, on the store laid out
    around that item. *)
Lemma repeated_orders (item_name : string) (f : document -> bool)
      (before after : list document) (nm : string) (p : scalar) :
  compile_filter (exact_match item_name) = Accepted f ->
  forallb (fun x => negb (f x)) before = true ->
  forall (nows : list Z) (k : nat) (it : document) (os : list order),
    f it = true ->
    item it = Some (SStr nm) -> price it = Some p ->
    stock it = Some (SInt (Z.of_nat k)) ->
    NoDup (map _id (before ++ it :: after)) ->
    run_calls (map (fun t => PlaceOrder t item_name) nows)
              {| menu := before ++ it :: after; orders := os |}
    = ((repeat (Returned (ordered (SStr nm))) (Nat.min (length nows) k)
        ++ repeat (Returned (out_of_stock (SStr nm))) (length nows - k))%list,
       {| menu := before ++ with_stock it (SInt (Z.of_nat (k - length nows))) :: after;
          orders := os ++ map (fun t => {| order_item := SStr nm; order_price := p;
                                           status := "kitchen_preparing";
                                           timestamp := t |})
                              (firstn k nows) |}).
Proof.
  intros Hf Hbefore. induction nows as [|t nows IH]; intros k it os Hit Hnm Hp Hk Hnd.
  - simpl. rewrite Nat.sub_0_r, (with_stock_same it _ Hk), firstn_nil, app_nil_r.
    reflexivity.
  - cbn [map run_calls call].
    assert (Hcall : place_order t item_name {| menu := before ++ it :: after; orders := os |}
                    = match k with
                      | O => (Returned (out_of_stock (SStr nm)),
                              {| menu := before ++ it :: after; orders := os |})
                      | S k' =>
                          (Returned (ordered (SStr nm)),
                           {| menu := before ++ with_stock it (SInt (Z.of_nat k')) :: after;
                              orders := os ++ [ {| order_item := SStr nm; order_price := p;
                                                   status := "kitchen_preparing";
                                                   timestamp := t |} ] |})
                      end).
    { unfold place_order, bind, find_one. rewrite Hf. cbn [menu].
      rewrite (find_app_hit f before it after Hbefore Hit).
      rewrite Hk, Hnm, Hp. cbn [lift getitem py_le0].
      destruct k as [|k'].
      - reflexivity.
      - assert (Hle : (Z.of_nat (S k') <=? 0) = false) by (apply Z.leb_gt; lia).
        rewrite Hle. unfold update_one_inc_stock. cbn [menu orders].
        rewrite (update_first_unique (-1) it _ before after Hnd Hk).
        replace (Z.of_nat (S k') + -1) with (Z.of_nat k') by lia. reflexivity. }
    rewrite Hcall. destruct k as [|k'].
    + rewrite (IH 0%nat it os Hit Hnm Hp Hk Hnd). simpl.
      rewrite Nat.min_0_r, Nat.sub_0_r. reflexivity.
    + rewrite (IH k' (with_stock it (SInt (Z.of_nat k')))
                 (os ++ [ {| order_item := SStr nm; order_price := p;
                             status := "kitchen_preparing"; timestamp := t |} ])%list).
      * simpl. now rewrite <- app_assoc.
      * rewrite <- Hit. apply (filter_respects _ f Hf). reflexivity.
      * exact Hnm.
      * exact Hp.
      * reflexivity.
      * rewrite map_app in Hnd |- *. exact Hnd.
Qed.

(** X7. Calls for one item made one after the other succeed until its
    stock is used up and are refused from then on: with unique [_id]s,
    for an item the lookup finds, with a price and a stock of [k], the
    first [k] calls return the confirmation and write one order each,
    with the time of the call, every later call returns the out-of-stock
    text and changes nothing, and the stock ends at [k] less the number
    of calls, or at 0. *)
Theorem orders_until_stock_runs_out (nows : list Z) (item_name : string) (st : store)
        (it : document) (k : nat) (p : scalar) :
  unique_ids st ->
  fst (find_one (exact_match item_name) st) = Returned (Some it) ->
  stock it = Some (SInt (Z.of_nat k)) ->
  price it = Some p ->
  exists nm before after,
    item it = Some (SStr nm)
    /\ menu st = (before ++ it :: after)%list
    /\ run_calls (map (fun t => PlaceOrder t item_name) nows) st
       = ((repeat (Returned ("SUCCESS: Ordered " ++ nm
                             ++ ". It will arrive in 30 mins.")%string)
                  (Nat.min (length nows) k)
           ++ repeat (Returned ("Sorry, " ++ nm ++ " is currently out of stock.")%string)
                     (length nows - k))%list,
          {| menu := before ++ with_stock it (SInt (Z.of_nat (k - length nows))) :: after;
             orders := orders st
                       ++ map (fun t => {| order_item := SStr nm; order_price := p;
                                           status := "kitchen_preparing";
                                           timestamp := t |})
                              (firstn k nows) |}).
Proof.
  intros Hnd H Hk Hp. destruct (exact_match_named _ _ _ H) as [nm Hnm].
  destruct (find_one_some _ _ _ H) as (f & Hf & Hfind).
  destruct (find_split _ _ _ Hfind) as (before & after & Hmenu & Hit & Hbefore).
  exists nm, before, after. split; [exact Hnm|]. split; [exact Hmenu|].
  unfold unique_ids in Hnd. rewrite Hmenu in Hnd.
  destruct st as [m os]. simpl in Hmenu. subst m.
  exact (repeated_orders item_name f before after nm p Hf Hbefore nows k it os
           Hit Hnm Hp Hk Hnd).
Qed.

End RunFacts.

(** The statements above on the seeded menu. *)

Lemma check_menu_everything_witness :
  py_lower "MeNu" = "menu"
  /\ check_menu "MeNu" seeded
     = (Returned
          (String.concat (String "010" EmptyString)
             ["- Club Sandwich: Available ($15) (Tags: contains_gluten, meat)";
              "- Vegan Buddha Bowl: Available ($18) (Tags: vegan, gluten_free, nuts)";
              "- Caesar Salad: OUT OF STOCK (Tags: vegetarian, contains_dairy)";
              "- Fruit Platter: Available ($10) (Tags: vegan, gluten_free)"]),
        seeded)
  /\ check_menu EmptyString seeded = check_menu "MeNu" seeded
  /\ fst (check_menu "menu" {| menu := []; orders := [] |})
     = Returned "No matching items found on the menu.".
Proof.
  split; [reflexivity|].
  pose proof (proj1 (check_menu_everything EmptyString seeded (or_introl eq_refl))) as He.
  pose proof (proj1 (check_menu_everything "MeNu" seeded (or_intror eq_refl))) as Hm.
  split; [rewrite Hm; reflexivity|].
  split; [now rewrite He, Hm|].
  vm_compute. reflexivity.
Defined.

Lemma seeded_unique_ids : unique_ids seeded.
Proof. unfold unique_ids. simpl. repeat constructor; simpl; intuition discriminate. Defined.

Lemma stock_accounted_witness :
  let ops := [PlaceOrder 1 "fruit platter"; Search "vegan"; PlaceOrder 2 "Caesar Salad";
              PlaceOrder 3 "Club Sandwich"] in
  unique_ids seeded /\ forallb priced (menu seeded) = true
  /\ total_stock (menu (exec_all ops seeded))
     + Z.of_nat (length (orders (exec_all ops seeded)))
     = total_stock (menu seeded) + Z.of_nat (length (orders seeded)).
Proof.
  intros ops. split; [exact seeded_unique_ids|]. split; [reflexivity|].
  exact (proj1 (stock_accounted ops seeded seeded_unique_ids eq_refl)).
Defined.

Lemma complete_menu_no_field_error_witness :
  let ops := [Search "("; PlaceOrder 1 "fruit platter"; PlaceOrder 2 "Pizza"] in
  forallb complete (menu seeded) = true
  /\ Forall (fun r => forall e, r = Raised e -> e = OperationFailure)
            (fst (run_calls ops seeded)).
Proof.
  intros ops. split; [reflexivity|].
  exact (proj1 (complete_menu_no_field_error ops seeded eq_refl)).
Defined.

Lemma check_menu_type_error_witness :
  let st := {| menu := [fruit_platter; mistyped]; orders := [] |} in
  fst (select "MENU" st) = Returned [fruit_platter; mistyped]
  /\ forallb well_typed [fruit_platter; mistyped] = false
  /\ check_menu "MENU" st = (Raised TypeError, st).
Proof.
  intros st.
  assert (Hsel : fst (select "MENU" st) = Returned [fruit_platter; mistyped])
    by (vm_compute; reflexivity).
  split; [exact Hsel|]. split; [reflexivity|].
  exact (check_menu_type_error "MENU" st [fruit_platter; mistyped] Hsel eq_refl).
Defined.

Lemma place_order_texts_witness :
  fst (place_order 7 "caesar salad" seeded)
  = Returned "Sorry, Caesar Salad is currently out of stock."
  /\ exists it nm k,
       fst (find_one (exact_match "caesar salad") seeded) = Returned (Some it)
       /\ item it = Some (SStr nm) /\ stock it = Some (SInt k) /\ k <= 0.
Proof.
  assert (H : fst (place_order 7 "caesar salad" seeded)
              = Returned "Sorry, Caesar Salad is currently out of stock.")
    by (vm_compute; reflexivity).
  split; [exact H|].
  destruct (place_order_texts 7 "caesar salad" seeded _ H)
    as [(_ & Ht & _) | [(it & nm & k & Hf & Hnm & Hk & Hle & _) | (it & nm & k & p & _ & _ & _ & _ & _ & _ & Hs)]].
  - discriminate Ht.
  - now exists it, nm, k.
  - discriminate Hs.
Defined.

Lemma orders_until_stock_runs_out_witness :
  let it := with_stock fruit_platter (SInt 1) in
  unique_ids last_platter
  /\ fst (find_one (exact_match "Fruit Platter") last_platter) = Returned (Some it)
  /\ stock it = Some (SInt (Z.of_nat 1)) /\ price it = Some (SInt 10)
  /\ fst (run_calls (map (fun t => PlaceOrder t "Fruit Platter") [5; 6; 7]) last_platter)
     = [Returned "SUCCESS: Ordered Fruit Platter. It will arrive in 30 mins.";
        Returned "Sorry, Fruit Platter is currently out of stock.";
        Returned "Sorry, Fruit Platter is currently out of stock."].
Proof.
  intros it.
  assert (Hnd : unique_ids last_platter).
  { unfold unique_ids. simpl. repeat constructor. simpl. intuition. }
  assert (Hf : fst (find_one (exact_match "Fruit Platter") last_platter)
               = Returned (Some it)) by (vm_compute; reflexivity).
  split; [exact Hnd|]. split; [exact Hf|]. split; [reflexivity|]. split; [reflexivity|].
  destruct (orders_until_stock_runs_out [5; 6; 7] "Fruit Platter" last_platter it 1
              (SInt 10) Hnd Hf eq_refl eq_refl)
    as (nm & before & after & Hnm & _ & Hrun).
  rewrite Hrun. injection Hnm as <-. reflexivity.
Defined.

(* ================================================================== *)
(** ** Inputs without pattern characters, end to end

    With the engine of the store on the modelled fragment. *)

Lemma mentions_spec (q : string) (doc : document) :
  mentions q doc = true
  <-> exists s, (name_of doc = Some s \/ In s (tag_strings doc)) /\ ci_substring q s.
Proof.
  unfold mentions, name_of, tag_strings. rewrite orb_true_iff, !existsb_exists. split.
  - intros [(s & Hin & Hs) | (s & Hin & Hs)]; exists s; rewrite <- ci_occurs_spec.
    + split; [left|exact Hs]. unfold field_strings in Hin.
      destruct (item doc) as [[n|s']|]; simpl in Hin; try contradiction.
      destruct Hin as [-> | []]. reflexivity.
    + split; [now right|exact Hs].
  - intros (s & [Hn | Hin] & Hs); rewrite <- ci_occurs_spec in Hs.
    + left. exists s. split; [|exact Hs]. unfold field_strings.
      destruct (item doc) as [[n|s']|]; try discriminate.
      injection Hn as ->. now left.
    + right. now exists s.
Qed.

(** X9. For a query without pattern characters, other than the empty
    query and ["menu"], on a well-typed menu, the search returns the
    lines of exactly the documents that have the query in their name or
    in one of their tags, letter case apart, in the order of the
    collection, and the fixed text when there is none. *)
Theorem check_menu_plain (query : string) (st : store) :
  plain query = true ->
  query <> EmptyString -> py_lower query <> "menu" ->
  forallb well_typed (menu st) = true ->
  check_menu query st
  = (Returned (result_text (List.filter (mentions query) (menu st))), st)
  /\ forall doc,
       In doc (List.filter (mentions query) (menu st))
       <-> In doc (menu st)
           /\ exists s, (name_of doc = Some s \/ In s (tag_strings doc))
                        /\ ci_substring query s.
Proof.
  intros Hplain Hne Hmenu Hwt. split.
  - apply check_menu_text.
    + now rewrite (select_plain query st Hplain Hne Hmenu).
    + now apply forallb_filter.
  - intros doc. now rewrite filter_In, mentions_spec.
Qed.

Lemma check_menu_plain_witness :
  plain "VEGAN" = true /\ "VEGAN" <> EmptyString /\ py_lower "VEGAN" <> "menu"
  /\ forallb well_typed (menu seeded) = true
  /\ check_menu "VEGAN" seeded
     = (Returned ("- Vegan Buddha Bowl: Available ($18) (Tags: vegan, gluten_free, nuts)"
                  ++ nl ++ "- Fruit Platter: Available ($10) (Tags: vegan, gluten_free)"),
        seeded).
Proof.
  assert (H1 : "VEGAN" <> EmptyString) by discriminate.
  assert (H2 : py_lower "VEGAN" <> "menu") by discriminate.
  split; [reflexivity|]. split; [exact H1|]. split; [exact H2|]. split; [reflexivity|].
  rewrite (proj1 (check_menu_plain "VEGAN" seeded eq_refl H1 H2 eq_refl)).
  reflexivity.
Defined.

Lemma strip_prefix_lower (p1 p2 : list ascii) :
  map lower_char p1 = map lower_char p2 ->
  forall s, strip_prefix p1 s = strip_prefix p2 s.
Proof.
  revert p2. induction p1 as [|c p1 IH]; intros [|c2 p2] H s; simpl in *;
    try discriminate; [reflexivity|].
  injection H as Hc Hp. destruct s as [|x s]; [reflexivity|].
  unfold caseless_eqb. rewrite Hc. destruct (Ascii.eqb _ _); [now apply IH|reflexivity].
Qed.

Lemma ci_occurs_lower (q1 q2 : string) :
  py_lower q1 = py_lower q2 -> forall s, ci_occurs q1 s = ci_occurs q2 s.
Proof.
  intros H s. unfold ci_occurs.
  apply (f_equal list_ascii_of_string) in H. rewrite !py_lower_list in H.
  induction (list_ascii_of_string s) as [|x l IH]; simpl;
    rewrite (strip_prefix_lower _ _ H); [reflexivity|now rewrite IH].
Qed.

Lemma py_lower_empty (q : string) : py_lower q = EmptyString -> q = EmptyString.
Proof. destruct q; [reflexivity|discriminate]. Qed.

(** X11. The letter case of a plain input does not matter: two queries
    that differ in letter case only give the same search result, and two
    names that differ in letter case only are looked up to the same
    document and leave the same store. *)
Theorem inputs_ignore_case (now : Z) (q1 q2 : string) (st : store) :
  plain q1 = true -> plain q2 = true ->
  py_lower q1 = py_lower q2 ->
  check_menu q1 st = check_menu q2 st
  /\ find_one (exact_match q1) st = find_one (exact_match q2) st
  /\ snd (place_order now q1 st) = snd (place_order now q2 st).
Proof.
  intros Hp1 Hp2 Hl.
  assert (Hfind : find_one (exact_match q1) st = find_one (exact_match q2) st).
  { rewrite (lookup_plain q1 st Hp1), (lookup_plain q2 st Hp2).
    do 2 f_equal. unfold named, ci_equal. now rewrite Hl. }
  split; [|split; [exact Hfind|]].
  - assert (Hsel : select q1 st = select q2 st).
    { destruct (String.eqb q1 EmptyString || String.eqb (py_lower q1) "menu")%bool eqn:B.
      - assert (H1 : q1 = EmptyString \/ py_lower q1 = "menu").
        { apply orb_prop in B as [B | B]; apply String.eqb_eq in B; auto. }
        assert (H2 : q2 = EmptyString \/ py_lower q2 = "menu").
        { destruct H1 as [-> | H1]; [left|right; congruence].
          apply py_lower_empty. now rewrite <- Hl. }
        now rewrite (select_everything q1 st H1), (select_everything q2 st H2).
      - apply orb_false_elim in B as [B1 B2].
        apply String.eqb_neq in B1, B2.
        assert (B1' : q2 <> EmptyString).
        { intros ->. apply B1. apply py_lower_empty. now rewrite Hl. }
        rewrite (select_plain q1 st Hp1 B1 B2).
        rewrite (select_plain q2 st Hp2 B1') by congruence.
        do 2 f_equal. apply filter_ext. intros doc. unfold mentions.
        now rewrite !(existsb_ext _ _ _ (ci_occurs_lower q1 q2 Hl)). }
    unfold check_menu, bind. now rewrite Hsel.
  - unfold place_order, bind. rewrite Hfind.
    destruct (find_one (exact_match q2) st) as [[[it|]| |] st']; reflexivity.
Qed.

Lemma inputs_ignore_case_witness :
  plain "Fruit Platter" = true /\ plain "fRUIT pLATTER" = true
  /\ py_lower "Fruit Platter" = py_lower "fRUIT pLATTER"
  /\ check_menu "Fruit Platter" seeded = check_menu "fRUIT pLATTER" seeded
  /\ snd (place_order 3 "Fruit Platter" seeded) = snd (place_order 3 "fRUIT pLATTER" seeded).
Proof.
  split; [reflexivity|]. split; [reflexivity|]. split; [reflexivity|].
  destruct (inputs_ignore_case 3 "Fruit Platter" "fRUIT pLATTER" seeded
              eq_refl eq_refl eq_refl) as (H1 & _ & H3).
  split; [exact H1 | exact H3].
Defined.

Lemma find_first {A : Type} (p : A -> bool) (l : list A) (a : A) :
  List.find p l = Some a ->
  exists before after, l = (before ++ a :: after)%list /\ List.find p before = None.
Proof.
  induction l as [|x l IH]; simpl; [discriminate|].
  destruct (p x) eqn:Hx.
  - intros H. injection H as ->. now exists [], l.
  - intros H. destruct (IH H) as (before & after & -> & Hb).
    exists (x :: before), after. simpl. now rewrite Hx.
Qed.

Lemma named_spec (item_name : string) (doc : document) :
  named item_name doc = true
  <-> exists s, item doc = Some (SStr s)
                /\ (py_lower s = py_lower item_name
                    \/ py_lower s = py_lower item_name ++ nl).
Proof.
  unfold named, ci_equal, field_strings. rewrite existsb_exists. split.
  - intros (s & Hin & Hs). exists s.
    rewrite orb_true_iff, !String.eqb_eq in Hs. split; [|exact Hs].
    destruct (item doc) as [[n|s']|]; simpl in Hin; try contradiction.
    destruct Hin as [-> | []]. reflexivity.
  - intros (s & Hi & Hs). exists s. rewrite Hi. simpl. split; [now left|].
    now rewrite orb_true_iff, !String.eqb_eq.
Qed.

(** X10. For a name without pattern characters, on a menu of complete
    documents with unique [_id]s, [place_order] does one of three
    things, decided by the first document, in the order of the
    collection, whose name is the given name letter case apart (a
    newline that ends the stored name not counting): there is none, and
    it returns the not-on-the-menu text; its stock is 0 or less, and it
    returns the out-of-stock text; otherwise it returns the
    confirmation, the stock of that document is one lower, the rest of
    the document and every other document are as they were, and the
    order is appended.  In the first two cases nothing changes. *)
Theorem place_order_plain (now : Z) (item_name : string) (st : store) :
  plain item_name = true ->
  unique_ids st ->
  forallb complete (menu st) = true ->
  match List.find (named item_name) (menu st) with
  | None =>
      place_order now item_name st
      = (Returned ("Error: '" ++ item_name
                   ++ "' is not on the menu. Please check the menu first."), st)
  | Some it =>
      exists nm p k before after,
        item it = Some (SStr nm) /\ price it = Some p /\ stock it = Some (SInt k)
        /\ menu st = (before ++ it :: after)%list
        /\ List.find (named item_name) before = None
        /\ place_order now item_name st
           = if k <=? 0
             then (Returned ("Sorry, " ++ nm ++ " is currently out of stock."), st)
             else (Returned ("SUCCESS: Ordered " ++ nm ++ ". It will arrive in 30 mins."),
                   {| menu := before
                              ++ {| _id := _id it; item := item it; price := price it;
                                    tags := tags it; stock := Some (SInt (k - 1)) |}
                              :: after;
                      orders := orders st
                                ++ [ {| order_item := SStr nm; order_price := p;
                                        status := "kitchen_preparing";
                                        timestamp := now |} ] |})
  end
  /\ forall doc,
       named item_name doc = true
       <-> exists s, item doc = Some (SStr s)
                     /\ (py_lower s = py_lower item_name
                         \/ py_lower s = py_lower item_name ++ String "010" EmptyString).
Proof.
  intros Hplain Hnd Hc. split; [|intros doc; apply named_spec].
  pose proof (lookup_plain item_name st Hplain) as Hlook.
  destruct (List.find (named item_name) (menu st)) as [it|] eqn:Hfind.
  - assert (H : fst (find_one (exact_match item_name) st) = Returned (Some it))
      by now rewrite Hlook.
    destruct (exact_match_named _ _ _ H) as [nm Hnm].
    destruct (find_first _ _ _ Hfind) as (before & after & Hmenu & Hbefore).
    assert (Hit : complete it = true).
    { rewrite forallb_forall in Hc. apply Hc. rewrite Hmenu.
      apply in_or_app. right. now left. }
    unfold complete, priced in Hit.
    apply andb_prop in Hit as [Hit _]. apply andb_prop in Hit as [Hs Hp].
    destruct (stock it) as [[k|s]|] eqn:Hk; try discriminate.
    destruct (price it) as [p|] eqn:Hpr; try discriminate.
    exists nm, p, k, before, after.
    split; [exact Hnm|]. split; [reflexivity|]. split; [reflexivity|].
    split; [exact Hmenu|]. split; [exact Hbefore|].
    unfold place_order, bind. rewrite Hlook. rewrite Hk, Hnm, Hpr. simpl.
    destruct (k <=? 0) eqn:Hle; [reflexivity|].
    unfold update_one_inc_stock. unfold unique_ids in Hnd.
    rewrite Hmenu in Hnd |- *.
    rewrite (update_first_unique (-1) it k before after Hnd Hk).
    unfold with_stock. rewrite Hnm, Hpr. reflexivity.
  - unfold place_order, bind. now rewrite Hlook.
Qed.

Lemma place_order_plain_witness :
  plain "club sandwich" = true /\ unique_ids seeded
  /\ forallb complete (menu seeded) = true
  /\ List.find (named "club sandwich") (menu seeded) = Some club_sandwich
  /\ place_order 9 "club sandwich" seeded
     = (Returned "SUCCESS: Ordered Club Sandwich. It will arrive in 30 mins.",
        {| menu := [ {| _id := 1; item := Some (SStr "Club Sandwich");
                        price := Some (SInt 15);
                        tags := Some [SStr "contains_gluten"; SStr "meat"];
                        stock := Some (SInt 9) |};
                     buddha_bowl; caesar_salad; fruit_platter];
           orders := [ {| order_item := SStr "Club Sandwich"; order_price := SInt 15;
                          status := "kitchen_preparing"; timestamp := 9 |} ] |}).
Proof.
  split; [reflexivity|]. split; [exact seeded_unique_ids|]. split; [reflexivity|].
  split; [reflexivity|].
  pose proof (proj1 (place_order_plain 9 "club sandwich" seeded
                       eq_refl seeded_unique_ids eq_refl)) as H.
  change (List.find (named "club sandwich") (menu seeded)) with (Some club_sandwich) in H.
  destruct H as (nm & p & k & before & after & Hnm & Hp & Hk & Hmenu & Hbefore & ->).
  injection Hnm as <-. injection Hp as <-. injection Hk as <-.
  destruct before as [|doc before].
  - injection Hmenu as <-. reflexivity.
  - injection Hmenu as <- Hrest. discriminate Hbefore.
Defined.

(* ================================================================== *)
(** ** Inputs the store refuses *)

Lemma lex_lits (s : list ascii) :
  forallb plain_char s = true -> lex s = Accepted (map TLit s).
Proof.
  intros H. rewrite <- (app_nil_r s) at 1. rewrite (lex_plain s [] H). simpl.
  now rewrite app_nil_r.
Qed.

(** The tokens of a pattern that has one parenthesis [c] between plain
    characters, and what may follow them. *)
Lemma lex_one_parenthesis (a b tail : list ascii) (c : ascii) (t : token)
      (ts : list token) :
  forallb plain_char a = true -> forallb plain_char b = true ->
  (forall rest, lex (c :: rest) = lex_cons t (lex rest)) ->
  lex tail = Accepted ts ->
  lex (a ++ c :: b ++ tail) = Accepted (map TLit a ++ t :: map TLit b ++ ts)%list.
Proof.
  intros Ha Hb Hc Htail.
  rewrite (lex_plain a _ Ha), Hc, (lex_plain b _ Hb), Htail. reflexivity.
Qed.

Lemma parse_open_unclosed (a b : list ascii) (ts : list token) (fr : frame) :
  ts = [] \/ ts = [TEol] ->
  parse (map TLit a ++ TOpen :: map TLit b ++ ts) fr [] = Rejected.
Proof.
  intros Hts. rewrite parse_lits. cbn [parse]. rewrite parse_lits.
  destruct Hts as [-> | ->]; reflexivity.
Qed.

Lemma parse_close_unopened (a : list ascii) (ts : list token) (fr : frame) :
  parse (map TLit a ++ TClose :: ts) fr [] = Rejected.
Proof. rewrite parse_lits. reflexivity. Qed.

Lemma compile_unbalanced (a b : string) (c : ascii) :
  plain a = true -> plain b = true ->
  c = "("%char \/ c = ")"%char ->
  regex_compile (a ++ String c b) = Rejected
  /\ regex_compile ("^" ++ (a ++ String c b) ++ "$") = Rejected.
Proof.
  intros Ha Hb Hc. unfold regex_compile, plain in *.
  change ("^" ++ (a ++ String c b) ++ "$") with (String "^" ((a ++ String c b) ++ "$")).
  cbn [list_ascii_of_string]. rewrite !list_ascii_app. cbn [list_ascii_of_string].
  change (lex ("^"%char :: ?l)) with (lex_cons TBol (lex l)).
  rewrite <- app_assoc. cbn [app].
  destruct Hc as [-> | ->].
  - rewrite <- (app_nil_r (list_ascii_of_string b)) at 1.
    rewrite (lex_one_parenthesis _ _ [] "(" TOpen [] Ha Hb (fun _ => eq_refl) eq_refl).
    rewrite (lex_one_parenthesis _ _ ["$"%char] "(" TOpen [TEol] Ha Hb
               (fun _ => eq_refl) eq_refl).
    cbn [lex_cons parse push]. split.
    + apply parse_open_unclosed. now left.
    + rewrite <- (app_nil_l (map TLit (list_ascii_of_string a) ++ _)).
      change ([] ++ ?l)%list with l.
      apply parse_open_unclosed. now right.
  - rewrite <- (app_nil_r (list_ascii_of_string b)) at 1.
    rewrite (lex_one_parenthesis _ _ [] ")" TClose [] Ha Hb (fun _ => eq_refl) eq_refl).
    rewrite (lex_one_parenthesis _ _ ["$"%char] ")" TClose [TEol] Ha Hb
               (fun _ => eq_refl) eq_refl).
    cbn [lex_cons parse push]. split; apply parse_close_unopened.
Qed.

Lemma not_every_item_query (q : string) (c : ascii) :
  In c (list_ascii_of_string q) ->
  ~ In (lower_char c) (list_ascii_of_string "menu") ->
  (String.eqb q EmptyString || String.eqb (py_lower q) "menu")%bool = false.
Proof.
  intros Hin Hc. apply orb_false_intro; apply String.eqb_neq.
  - intros ->. contradiction.
  - intros H. apply Hc. apply (f_equal list_ascii_of_string) in H.
    rewrite py_lower_list in H. rewrite <- H. now apply in_map.
Qed.

(** X12. A parenthesis without its partner among plain characters, in a
    query or in a name, makes the tool raise [OperationFailure]: the
    store refuses the pattern.  The tool returns no text and leaves the
    store as it was. *)
Theorem unbalanced_parenthesis_raises (now : Z) (a b : string) (c : ascii) (st : store) :
  plain a = true -> plain b = true ->
  c = "("%char \/ c = ")"%char ->
  check_menu (a ++ String c b) st = (Raised OperationFailure, st)
  /\ place_order now (a ++ String c b) st = (Raised OperationFailure, st).
Proof.
  intros Ha Hb Hc. destruct (compile_unbalanced a b c Ha Hb Hc) as [Hq Hn]. split.
  - unfold check_menu, bind, select.
    rewrite (not_every_item_query (a ++ String c b) c).
    + unfold find, compile_filter, compile_pattern, pcre_fragment. now rewrite Hq.
    + rewrite list_ascii_app. apply in_or_app. right. now left.
    + destruct Hc as [-> | ->]; simpl; intuition discriminate.
  - unfold place_order, bind, find_one, exact_match, compile_filter, compile_pattern,
      pcre_fragment.
    now rewrite Hn.
Qed.

Lemma unbalanced_parenthesis_raises_witness :
  plain "Soup " = true /\ plain "V" = true
  /\ check_menu "Soup (V" seeded = (Raised OperationFailure, seeded)
  /\ place_order 1 "Soup (V" seeded = (Raised OperationFailure, seeded).
Proof.
  split; [reflexivity|]. split; [reflexivity|].
  exact (unbalanced_parenthesis_raises 1 "Soup " "V" "(" seeded eq_refl eq_refl
           (or_introl eq_refl)).
Defined.

(* ================================================================== *)
(** ** A name that is a pattern *)

Lemma shorter_tail (b b' : bool) (x : ascii) (l : list ascii) :
  shorter (b, x :: l) (b', l) = true.
Proof. unfold shorter. simpl. apply Nat.leb_refl. Qed.

Lemma star_any_reaches_end (l : list ascii) :
  forallb (fun c => negb (Ascii.eqb c newline)) l = true ->
  forall b, exists b', In (b', []) (star_from (run Any) (length l) (b, l)).
Proof.
  induction l as [|x l IH]; intros H b.
  - exists b. now left.
  - simpl in H. apply andb_prop in H as [Hx Hl]. apply negb_true_iff in Hx.
    destruct (IH Hl false) as [b' Hb']. exists b'.
    cbn [length star_from run snd]. rewrite Hx. cbn [List.filter].
    rewrite shorter_tail. cbn [flat_map]. rewrite app_nil_r. right. exact Hb'.
Qed.

Lemma flat_map_not_nil {A B : Type} (f : A -> list B) (l : list A) (a : A) :
  In a l -> is_nil (f a) = false -> is_nil (flat_map f l) = false.
Proof.
  induction l as [|x l IH]; simpl; intros Hin Ha; [contradiction|].
  destruct Hin as [-> | Hin].
  - destruct (f a); [discriminate|reflexivity].
  - destruct (f x); [now apply IH|reflexivity].
Qed.

Lemma wildcard_matches (s : string) :
  one_line s = true ->
  regex_search (Seq Bol (Seq (Star Any) (Seq Eol Eps))) s = true.
Proof.
  unfold one_line, regex_search. intros H.
  destruct (star_any_reaches_end _ H true) as [b' Hb'].
  destruct (list_ascii_of_string s) as [|x l] eqn:E;
    cbn [starts existsb]; apply orb_true_iff; left; apply negb_true_iff;
    cbn [run fst flat_map]; rewrite app_nil_r;
    apply (flat_map_not_nil _ _ (b', [])); try reflexivity; exact Hb'.
Qed.

Lemma find_ext_in {A : Type} (p q : A -> bool) (l : list A) :
  (forall a, In a l -> p a = q a) -> List.find p l = List.find q l.
Proof.
  induction l as [|a l IH]; simpl; intros H; [reflexivity|].
  rewrite (H a (or_introl eq_refl)). destruct (q a); [reflexivity|].
  apply IH. intros x Hx. apply H. now right.
Qed.

(** X13. The name [.*] is no name but is looked up all the same: when the
    names of the menu are on one line each, the lookup of [place_order]
    for [.*] finds the first document that has a name, whatever the name
    is, so the call orders that item if it is in stock. *)
Theorem wildcard_finds_first_item (st : store) :
  names_on_one_line (menu st) = true ->
  find_one (exact_match ".*") st = (Returned (List.find has_name (menu st)), st).
Proof.
  intros H. unfold find_one, exact_match, compile_filter, compile_pattern, pcre_fragment.
  assert (Hc : regex_compile ("^" ++ ".*" ++ "$")
               = Accepted (Seq Bol (Seq (Star Any) (Seq Eol Eps)))) by reflexivity.
  rewrite Hc. do 2 f_equal. apply find_ext_in. intros doc Hin.
  unfold names_on_one_line in H. rewrite forallb_forall in H. specialize (H doc Hin).
  unfold has_name, name_of, field_strings in *.
  destruct (item doc) as [[n|s]|]; simpl; try reflexivity.
  now rewrite (wildcard_matches s H).
Qed.

Lemma wildcard_finds_first_item_witness :
  names_on_one_line (menu patchy) = true
  /\ find_one (exact_match ".*") patchy = (Returned (Some unpriced), patchy).
Proof.
  split; [reflexivity|].
  exact (wildcard_finds_first_item patchy eq_refl).
Defined.

(* ================================================================== *)
(** ** The chat session

    For every agent. *)

Section ChatFacts.

Context {agent : Agent}.

Lemma chat_loop_more (n m : nat) :
  forall stdin s rest s',
    chat_loop n stdin s = (Looping, rest, s') ->
    chat_loop (n + m) stdin s = chat_loop m rest s'.
Proof.
  induction n as [|n IH]; intros stdin s rest s' H; simpl in *.
  - now injection H as <- <-.
  - destruct (round stdin s) as [[[|] stdin1] s1]; [now apply IH|discriminate].
Qed.

(** Lines that are no exit word are read one per round, whatever comes
    after them. *)
Lemma chat_loop_lines (before : list string) :
  forallb (fun u => negb (is_exit u)) before = true ->
  forall s, exists s',
    forall rest, chat_loop (length before) (before ++ rest) s = (Looping, rest, s').
Proof.
  induction before as [|u before IH]; simpl; intros H s.
  - now exists s.
  - apply andb_prop in H as [Hu Hb]. apply negb_true_iff in Hu. rewrite Hu.
    destruct (invoke u (load_memory (chat_memory s)) (db s)) as [[[output|]|error] db'];
      repeat match goal with
             | |- context [match add_message_error ?m ?l with _ => _ end] =>
                 destruct (add_message_error m l)
             end;
      match goal with
      | |- context [chat_loop _ _ ?s1] => destruct (IH Hb s1) as [s' Hs']
      end; now exists s'.
Qed.

(** X14. The session is left at the first line that is ["exit"] or
    ["quit"], letter case apart: the lines before it are dealt with, one
    per round, that line ends the loop, and what follows it is not
    read. *)
Theorem session_ends_at_exit_word (before : list string) (word : string)
        (after : list string) (s : session) :
  forallb (fun u => negb (is_exit u)) before = true ->
  is_exit word = true ->
  exists s',
    chat_loop (length before) before s = (Looping, [], s')
    /\ forall fuel, (length before < fuel)%nat ->
                    chat_loop fuel (before ++ word :: after) s = (Left, after, s').
Proof.
  intros Hb Hw. destruct (chat_loop_lines before Hb s) as [s' Hs']. exists s'. split.
  - specialize (Hs' []). now rewrite app_nil_r in Hs'.
  - intros fuel Hfuel.
    replace fuel with (length before + S (fuel - length before - 1))%nat by lia.
    rewrite (chat_loop_more _ _ _ _ _ _ (Hs' (word :: after))).
    simpl. now rewrite Hw.
Qed.






(** X16. When the input runs out before an exit word was typed, the loop
    is never left: [input] raises, line 204 catches it, and every round
    from then on prints ["Error: EOF when reading a line"] and changes
    nothing else. *)
Theorem end_of_input_never_leaves (stdin : list string) (s : session) :
  forallb (fun u => negb (is_exit u)) stdin = true ->
  (forall fuel, fst (fst (chat_loop fuel stdin s)) = Looping)
  /\ forall n s0,
       chat_loop n [] s0
       = (Looping, [],
          {| chat_memory := chat_memory s0;
             stdout := stdout s0 ++ repeat "Error: EOF when reading a line" n;
             db := db s0 |}).
Proof.
  intros H. split.
  - intros fuel. revert stdin s H. induction fuel as [|fuel IH]; intros stdin s H.
    + reflexivity.
    + cbn [chat_loop]. unfold round. destruct stdin as [|u stdin].
      * now apply IH.
      * simpl in H. apply andb_prop in H as [Hu H]. apply negb_true_iff in Hu.
        rewrite Hu.
        destruct (invoke u (load_memory (chat_memory s)) (db s)) as [[[o|]|e] db'];
          repeat match goal with
                 | |- context [match add_message_error ?m ?l with _ => _ end] =>
                     destruct (add_message_error m l)
                 end;
          now apply IH.
  - induction n as [|n IH]; intros s0.
    + simpl. rewrite app_nil_r. now destruct s0.
    + cbn [chat_loop round]. rewrite IH. unfold print. simpl.
      now rewrite <- app_assoc.
Qed.

End ChatFacts.

Lemma session_ends_at_exit_word_witness :
  forallb (fun u => negb (is_exit u)) ["Fruit Platter"; "Pizza"] = true
  /\ is_exit "QUIT" = true
  /\ fst (run_chat_session 0 [] 7 ["Fruit Platter"; "Pizza"; "QUIT"; "Club Sandwich"] seeded)
     = (Left, ["Club Sandwich"]).
Proof.
  split; [reflexivity|]. split; [reflexivity|].
  unfold run_chat_session.
  destruct (session_ends_at_exit_word ["Fruit Platter"; "Pizza"] "QUIT" ["Club Sandwich"]
              {| chat_memory := [];
                 stdout := ["--- Starting Chat Session (" ++ ("guest_" ++ str_of_int 0)
                            ++ ") ---"];
                 db := seeded |} eq_refl eq_refl) as (s' & _ & H).
  cbn [app] in H. rewrite (H 7%nat); [reflexivity|]. simpl. lia.
Defined.

Lemma end_of_input_never_leaves_witness :
  forallb (fun u => negb (is_exit u)) ["Fruit Platter"] = true
  /\ fst (fst (run_chat_session 0 [] 50 ["Fruit Platter"] seeded)) = Looping.
Proof.
  split; [reflexivity|].
  exact (proj1 (end_of_input_never_leaves ["Fruit Platter"] _ eq_refl) 50%nat).
Defined.

(* ================================================================== *)
(** ** The session and the tools together

    For every engine and every agent that writes to the store through
    the tools only. *)

Section ProgramFacts.

Context {engine : Engine} {agent : Agent}.

Lemma exec_all_orders_kept (ops : list op) :
  forall st, exists added, orders (exec_all ops st) = (orders st ++ added)%list.
Proof.
  induction ops as [|o ops IH]; intros st; simpl.
  - exists []. now rewrite app_nil_r.
  - destruct (exec_orders st o) as (a1 & H1 & _).
    destruct (IH (exec st o)) as (a2 & H2).
    exists (a1 ++ a2)%list. now rewrite H2, H1, app_assoc.
Qed.

Lemma exec_all_complete (ops : list op) :
  forall st, forallb complete (menu st) = true ->
             forallb complete (menu (exec_all ops st)) = true.
Proof.
  induction ops as [|o ops IH]; intros st Hc; simpl; [exact Hc|].
  apply IH. exact (proj2 (call_complete o st Hc)).
Qed.

Lemma round_is_calls (stdin : list string) (s : session) :
  tools_only -> exists ops, db (snd (round stdin s)) = exec_all ops (db s).
Proof.
  intros Htools. unfold round. destruct stdin as [|u stdin]; [now exists []|].
  destruct (is_exit u); [now exists []|].
  destruct (Htools u (load_memory (chat_memory s)) (db s)) as [ops Hops].
  exists ops. destruct (invoke u _ (db s)) as [[[o|]|e] db'];
    repeat match goal with
           | |- context [match add_message_error ?m ?l with _ => _ end] =>
               destruct (add_message_error m l)
           end;
    exact Hops.
Qed.

(** All a session does to the store is a run of calls of the tools. *)
Lemma chat_is_calls (fuel : nat) :
  tools_only ->
  forall stdin s, exists ops, db (snd (chat_loop fuel stdin s)) = exec_all ops (db s).
Proof.
  intros Htools. induction fuel as [|fuel IH]; intros stdin s; [now exists []|].
  cbn [chat_loop]. destruct (round_is_calls stdin s Htools) as [ops1 H1].
  destruct (round stdin s) as [[[|] stdin1] s1]; simpl in H1.
  - destruct (IH stdin1 s1) as [ops2 H2]. exists (ops1 ++ ops2)%list.
    now rewrite exec_all_app, <- H1.
  - now exists ops1.
Qed.

(** X17. A chat session keeps what the tools keep.  When the agent
    writes to the store through the tools only, the menu had unique
    [_id]s, no negative stock and a price on every item, then after any
    number of rounds on any input: no stock is negative, the menu has
    the same documents but for their stock, the orders there were are
    still in front, and the units in stock plus the number of orders is
    what it was. *)
Theorem session_keeps_the_books (fuel : nat) (stdin : list string) (s : session) :
  tools_only ->
  unique_ids (db s) -> stocks_nonneg (db s) -> forallb priced (menu (db s)) = true ->
  let s' := snd (chat_loop fuel stdin s) in
  stocks_nonneg (db s')
  /\ map identity_of (menu (db s')) = map identity_of (menu (db s))
  /\ (exists added, orders (db s') = (orders (db s) ++ added)%list)
  /\ total_stock (menu (db s')) + Z.of_nat (length (orders (db s')))
     = total_stock (menu (db s)) + Z.of_nat (length (orders (db s))).
Proof.
  intros Htools Hnd Hinv Hpr s'. subst s'.
  destruct (chat_is_calls fuel Htools stdin s) as [ops ->].
  split; [exact (proj2 (exec_all_preserves ops (db s) Hnd Hinv))|].
  split; [apply exec_all_identity|].
  split; [apply exec_all_orders_kept|].
  now apply exec_all_accounted.
Qed.

(** X18. The script as a whole.  Whatever the store held before, once
    the menu is seeded and for as long as the session lasts: the menu is
    the four seeded items, complete, with no negative stock; the orders
    of earlier runs are still there, in front of the new ones; and the
    units left in stock plus the orders written in this run make the 35
    units of the seed.  So one run writes at most 35 orders. *)
Theorem script_keeps_the_books (now : Z) (kept : list message) (fuel : nat)
        (stdin : list string) (st : store) :
  tools_only ->
  let s' := snd (main now kept fuel stdin st) in
  map identity_of (menu (db s')) = map identity_of seeded_menu
  /\ forallb complete (menu (db s')) = true
  /\ stocks_nonneg (db s')
  /\ exists added,
       orders (db s') = (orders st ++ added)%list
       /\ total_stock (menu (db s')) + Z.of_nat (length added) = 35
       /\ (length added <= 35)%nat.
Proof.
  intros Htools s'. subst s'. unfold main, run_chat_session.
  match goal with
  | |- context [chat_loop fuel stdin ?s0] =>
      destruct (chat_is_calls fuel Htools stdin s0) as [ops Hops]
  end.
  rewrite Hops. cbn [db].
  assert (Hnd : unique_ids (reset_menu st)).
  { unfold unique_ids. simpl. repeat constructor; simpl; intuition discriminate. }
  assert (Hinv : stocks_nonneg (reset_menu st)).
  { unfold stocks_nonneg. simpl. repeat constructor; unfold stock_nonneg; simpl; lia. }
  assert (Hfin : stocks_nonneg (exec_all ops (reset_menu st)))
    by exact (proj2 (exec_all_preserves ops _ Hnd Hinv)).
  split; [apply exec_all_identity|].
  split; [now apply exec_all_complete|].
  split; [exact Hfin|].
  destruct (exec_all_orders_kept ops (reset_menu st)) as [added Hadded].
  exists added. split; [exact Hadded|].
  pose proof (exec_all_accounted ops (reset_menu st) Hnd eq_refl) as Hacc.
  rewrite Hadded, length_app in Hacc. cbn [reset_menu orders menu] in Hacc.
  change (total_stock seeded_menu) with 35 in Hacc.
  apply total_stock_nonneg in Hfin. split; lia.
Qed.

End ProgramFacts.

Lemma ordering_agent_tools_only : tools_only.
Proof.
  intros input history_text st. exists [PlaceOrder 0 input].
  simpl. unfold exec, call. simpl.
  destruct (place_order 0 input st) as [[text|e|] st']; reflexivity.
Defined.

Lemma session_keeps_the_books_witness :
  let s := {| chat_memory := []; stdout := []; db := seeded |} in
  tools_only /\ unique_ids (db s) /\ stocks_nonneg (db s)
  /\ forallb priced (menu (db s)) = true
  /\ stocks_nonneg (db (snd (chat_loop 5 ["Fruit Platter"; "Caesar Salad"; "exit"] s))).
Proof.
  intros s.
  assert (Hinv : stocks_nonneg (db s)).
  { unfold stocks_nonneg. simpl. repeat constructor; unfold stock_nonneg; simpl; lia. }
  split; [exact ordering_agent_tools_only|]. split; [exact seeded_unique_ids|].
  split; [exact Hinv|]. split; [reflexivity|].
  exact (proj1 (session_keeps_the_books 5 ["Fruit Platter"; "Caesar Salad"; "exit"] s
                  ordering_agent_tools_only seeded_unique_ids Hinv eq_refl)).
Defined.

Lemma script_keeps_the_books_witness :
  tools_only
  /\ map identity_of (menu (db (snd (main 0 [] 4 ["Fruit Platter"; "quit"] patchy))))
     = map identity_of seeded_menu.
Proof.
  split; [exact ordering_agent_tools_only|].
  exact (proj1 (script_keeps_the_books 0 [] 4 ["Fruit Platter"; "quit"] patchy
                  ordering_agent_tools_only)).
Defined.

(* ================================================================== *)
(** ** Calls at the same time, in general

    For every engine. *)

Section RaceFacts.

Context {engine : Engine}.

Lemma update_first_le (id : N) (docs : list document) :
  forall docs',
    update_first id (-1) docs = Returned docs' ->
    Forall2 (fun d d' => stock_of d' <= stock_of d) docs docs'.
Proof.
  assert (Hrefl : forall l : list document,
             Forall2 (fun d d' => stock_of d' <= stock_of d) l l)
    by (induction l; constructor; [lia|assumption]).
  induction docs as [|doc rest IH]; simpl; intros docs' H.
  - injection H as <-. constructor.
  - destruct (N.eqb (_id doc) id).
    + unfold inc_stock in H.
      destruct (stock doc) as [[k|s]|] eqn:Hk; try discriminate;
        injection H as <-; (constructor; [|apply Hrefl]);
        unfold stock_of; simpl; rewrite Hk; lia.
    + destruct (update_first id (-1) rest) as [rest'| |]; try discriminate.
      injection H as <-. constructor; [lia|now apply IH].
Qed.

Lemma exec_never_restocks (st : store) (o : op) :
  Forall2 (fun d d' => stock_of d' <= stock_of d) (menu st) (menu (exec st o)).
Proof.
  assert (Hrefl : forall l : list document,
             Forall2 (fun d d' => stock_of d' <= stock_of d) l l)
    by (induction l; constructor; [lia|assumption]).
  destruct o as [query | now item_name]; unfold exec, call.
  - rewrite check_menu_reads. apply Hrefl.
  - destruct (place_order_leaves now item_name st)
      as [-> | (it & docs & U & [-> | (nm & p & ->)])];
      [apply Hrefl| |]; simpl; exact (update_first_le _ _ _ U).
Qed.

Lemma Forall2_le_trans (l1 l2 l3 : list document) :
  Forall2 (fun d d' => stock_of d' <= stock_of d) l1 l2 ->
  Forall2 (fun d d' => stock_of d' <= stock_of d) l2 l3 ->
  Forall2 (fun d d' => stock_of d' <= stock_of d) l1 l3.
Proof.
  intros H. revert l3. induction H as [|a b l1 l2 Hab _ IH]; intros l3 H3.
  - inversion H3. constructor.
  - inversion H3 as [|? c ? l3' Hbc H3']; subst. constructor; [lia|now apply IH].
Qed.

(** X19. The tools never add to a stock: after any run of calls, on any
    store, the stock of every document of the menu is what it was or
    less. *)
Theorem stock_never_restocked (ops : list op) (st : store) :
  Forall2 (fun d d' => stock_of d' <= stock_of d) (menu st) (menu (exec_all ops st)).
Proof.
  revert st. induction ops as [|o ops IH]; intros st; simpl.
  - induction (menu st); constructor; [lia|assumption].
  - exact (Forall2_le_trans _ _ _ (exec_never_restocks st o) (IH (exec st o))).
Qed.

Lemma update_first_taken (id : N) (docs : list document) :
  In id (map _id docs) -> forallb complete docs = true ->
  exists docs',
    update_first id (-1) docs = Returned docs'
    /\ total_stock docs' = total_stock docs - 1
    /\ forallb complete docs' = true
    /\ map _id docs' = map _id docs.
Proof.
  induction docs as [|doc rest IH]; simpl; intros Hin Hc; [contradiction|].
  apply andb_prop in Hc as [Hd Hr]. destruct (N.eqb (_id doc) id) eqn:E.
  - assert (Hs : exists k, stock doc = Some (SInt k)).
    { unfold complete in Hd. destruct (stock doc) as [[k|s]|]; try discriminate.
      now exists k. }
    destruct Hs as [k Hk]. unfold inc_stock. rewrite Hk.
    eexists. split; [reflexivity|]. simpl.
    rewrite (with_stock_complete doc _ Hd), Hr. unfold stock_of. simpl. rewrite Hk.
    repeat split. lia.
  - destruct Hin as [Hin | Hin]; [apply N.eqb_neq in E; contradiction|].
    destruct (IH Hin Hr) as (rest' & -> & Ht & Hc' & Hids).
    eexists. split; [reflexivity|]. simpl. rewrite Hd, Hc', Ht, Hids.
    repeat split. lia.
Qed.

(** One operation of one thread, on a complete menu. *)
Lemma step_accounted (t : thread) (st : store) :
  forallb complete (menu st) = true ->
  thread_ok (map _id (menu st)) t ->
  forallb complete (menu (snd (step t st))) = true
  /\ map _id (menu (snd (step t st))) = map _id (menu st)
  /\ thread_ok (map _id (menu st)) (fst (step t st))
  /\ total_stock (menu (snd (step t st))) + Z.of_nat (length (orders (snd (step t st))))
     + taken (fst (step t st))
     = total_stock (menu st) + Z.of_nat (length (orders st)) + taken t.
Proof.
  intros Hc Hok. destruct t as [now item_name | now it | now it | r].
  - cbn [step]. lookup_outcome item_name st o E.
    destruct o as [[it|]| |]; simpl; try (repeat split; auto; fail).
    assert (H : fst (find_one (exact_match item_name) st) = Returned (Some it))
      by now rewrite E.
    destruct (exact_match_named _ _ _ H) as [nm Hnm].
    destruct (find_one_some _ _ _ H) as (f & Hf & Hfind).
    apply find_some in Hfind as [Hin _].
    assert (Hit : complete it = true) by (rewrite forallb_forall in Hc; now apply Hc).
    unfold complete, priced in Hit.
    apply andb_prop in Hit as [Hit _]. apply andb_prop in Hit as [Hs Hp].
    destruct (stock it) as [[k|s]|]; try discriminate.
    unfold bind, lift. simpl. destruct (k <=? 0); simpl.
    + rewrite Hnm. simpl. repeat split; auto.
    + repeat split; auto.
      * now apply in_map.
      * rewrite Hnm. discriminate.
      * destruct (price it); [discriminate|discriminate].
  - cbn [step]. unfold thread_ok in Hok. simpl in Hok. destruct Hok as (Hin & Hi & Hp).
    unfold update_one_inc_stock.
    destruct (update_first_taken (_id it) (menu st) Hin Hc) as (docs & -> & Ht & Hc' & Hids).
    simpl. rewrite Ht. repeat split; auto; try lia.
  - cbn [step]. unfold thread_ok in Hok. simpl in Hok. destruct Hok as (Hin & Hi & Hp).
    destruct (item it) as [nm|]; [|contradiction].
    destruct (price it) as [p|]; [|contradiction].
    unfold finish, bind, lift, insert_one. simpl. rewrite length_app. simpl.
    repeat split; auto; try lia.
  - simpl. repeat split; auto.
Qed.

Lemma units_in_flight_set_nth (threads : list thread) :
  forall i t t',
    nth_error threads i = Some t ->
    units_in_flight (set_nth i t' threads) = units_in_flight threads - taken t + taken t'.
Proof.
  induction threads as [|x threads IH]; intros [|i] t t' H; simpl in *; try discriminate.
  - injection H as ->. lia.
  - rewrite (IH i t t' H). lia.
Qed.

Lemma Forall_set_nth {A : Type} (P : A -> Prop) (l : list A) :
  forall i a, Forall P l -> P a -> Forall P (set_nth i a l).
Proof.
  induction l as [|x l IH]; intros [|i] a Hl Ha; simpl; try assumption;
    inversion Hl; subst; constructor; auto.
Qed.

Lemma interleave_accounted (schedule : list nat) :
  forall threads st,
    forallb complete (menu st) = true ->
    Forall (thread_ok (map _id (menu st))) threads ->
    total_stock (menu (snd (interleave schedule threads st)))
    + Z.of_nat (length (orders (snd (interleave schedule threads st))))
    + units_in_flight (fst (interleave schedule threads st))
    = total_stock (menu st) + Z.of_nat (length (orders st)) + units_in_flight threads.
Proof.
  induction schedule as [|i schedule IH]; intros threads st Hc Hok; [reflexivity|].
  cbn [interleave]. destruct (nth_error threads i) as [t|] eqn:Ht; [|now apply IH].
  assert (Ht_ok : thread_ok (map _id (menu st)) t).
  { rewrite Forall_forall in Hok. apply Hok. exact (nth_error_In _ _ Ht). }
  destruct (step_accounted t st Hc Ht_ok) as (Hc' & Hids & Hok' & Heq).
  destruct (step t st) as [t' st']. simpl in Hc', Hids, Hok', Heq.
  rewrite IH.
  - rewrite (units_in_flight_set_nth threads i t t' Ht). lia.
  - exact Hc'.
  - rewrite Hids. now apply Forall_set_nth.
Qed.

(** X20. However the operations of any number of calls of [place_order]
    are interleaved, on a menu of complete documents the books add up:
    the units in stock, plus the orders written, plus the calls that
    have taken a unit and not yet written their order, is always what
    stock and orders were at the start.  A race can take a stock below
    0, but it never loses a unit and never writes an order for a unit it
    did not take. *)
Theorem races_keep_the_books (schedule : list nat) (threads : list thread) (st : store) :
  forallb complete (menu st) = true ->
  forallb is_calling threads = true ->
  total_stock (menu (snd (interleave schedule threads st)))
  + Z.of_nat (length (orders (snd (interleave schedule threads st))))
  + units_in_flight (fst (interleave schedule threads st))
  = total_stock (menu st) + Z.of_nat (length (orders st)).
Proof.
  intros Hc Hcalling.
  assert (H0 : units_in_flight threads = 0
               /\ Forall (thread_ok (map _id (menu st))) threads).
  { clear Hc. induction threads as [|t threads IH]; simpl in *; [now split|].
    apply andb_prop in Hcalling as [Ht Hrest]. destruct (IH Hrest) as [Hu Hf].
    destruct t; try discriminate. simpl. rewrite Hu.
    split; [reflexivity|]. constructor; [exact I|exact Hf]. }
  destruct H0 as [Hu Hok].
  rewrite (interleave_accounted schedule threads st Hc Hok), Hu. lia.
Qed.

Lemma interleave_app (s1 s2 : list nat) :
  forall threads st,
    interleave (s1 ++ s2) threads st
    = interleave s2 (fst (interleave s1 threads st)) (snd (interleave s1 threads st)).
Proof.
  induction s1 as [|i s1 IH]; intros threads st; [reflexivity|].
  cbn [app interleave]. destruct (nth_error threads i) as [t|]; [|apply IH].
  destruct (step t st) as [t' st']. apply IH.
Qed.

Lemma set_nth_middle {A : Type} (done : list A) (a a' : A) (todo : list A) :
  set_nth (length done) a' (done ++ a :: todo) = (done ++ a' :: todo)%list.
Proof. induction done as [|x done IH]; simpl; [|rewrite IH]; reflexivity. Qed.

(** The schedule that names every thread once, in order, is a sweep. *)
Lemma interleave_seq (todo : list thread) :
  forall done st,
    interleave (seq (length done) (length todo)) (done ++ todo) st
    = ((done ++ fst (sweep todo st))%list, snd (sweep todo st)).
Proof.
  induction todo as [|t todo IH]; intros done st.
  - simpl. now rewrite app_nil_r.
  - cbn [length seq interleave sweep].
    rewrite nth_error_app2, Nat.sub_diag by apply Nat.le_refl. cbn [nth_error].
    destruct (step t st) as [t' st']. rewrite set_nth_middle.
    replace (done ++ t' :: todo)%list with ((done ++ [t']) ++ todo)%list
      by now rewrite <- app_assoc.
    replace (S (length done)) with (length (done ++ [t']))
      by (rewrite length_app; simpl; lia).
    rewrite IH. destruct (sweep todo st') as [todo' st'']. simpl.
    now rewrite <- app_assoc.
Qed.

Lemma sweep_lookups (item_name : string) (st : store) (it : document) (k : Z)
      (nows : list Z) :
  find_one (exact_match item_name) st = (Returned (Some it), st) ->
  stock it = Some (SInt k) -> 0 < k ->
  sweep (map (fun t => Calling t item_name) nows) st
  = (map (fun t => Decrementing t it) nows, st).
Proof.
  intros Hf Hk Hpos. induction nows as [|t nows IH]; [reflexivity|].
  cbn [map sweep step]. rewrite Hf. unfold bind, lift. rewrite Hk. cbn [getitem py_le0].
  assert (Hle : (k <=? 0) = false) by (apply Z.leb_gt; exact Hpos).
  rewrite Hle, IH. reflexivity.
Qed.

Lemma sweep_decrements (it : document) (before after : list document) (os : list order)
      (nows : list Z) :
  NoDup (map _id (before ++ it :: after)) ->
  forall j,
    sweep (map (fun t => Decrementing t it) nows)
          {| menu := before ++ with_stock it (SInt j) :: after; orders := os |}
    = (map (fun t => Recording t it) nows,
       {| menu := before ++ with_stock it (SInt (j - Z.of_nat (length nows))) :: after;
          orders := os |}).
Proof.
  intros Hnd. induction nows as [|t nows IH]; intros j.
  - simpl. now rewrite Z.sub_0_r.
  - cbn [map sweep step]. unfold update_one_inc_stock. cbn [menu orders].
    change (_id it) with (_id (with_stock it (SInt j))).
    rewrite (update_first_unique (-1) (with_stock it (SInt j)) j before after);
      [|rewrite map_app in Hnd |- *; exact Hnd|reflexivity].
    change (with_stock (with_stock it (SInt j)) (SInt (j + -1)))
      with (with_stock it (SInt (j + -1))).
    rewrite IH.
    replace (j - Z.of_nat (length (t :: nows))) with (j + -1 - Z.of_nat (length nows))
      by (cbn [length]; lia).
    reflexivity.
Qed.

Lemma sweep_records (it : document) (nm : string) (p : scalar) (nows : list Z) :
  item it = Some (SStr nm) -> price it = Some p ->
  forall st,
    sweep (map (fun t => Recording t it) nows) st
    = (map (fun _ => Finished (Returned (ordered (SStr nm)))) nows,
       {| menu := menu st;
          orders := orders st
                    ++ map (fun t => {| order_item := SStr nm; order_price := p;
                                        status := "kitchen_preparing"; timestamp := t |})
                           nows |}).
Proof.
  intros Hnm Hp. induction nows as [|t nows IH]; intros st.
  - simpl. rewrite app_nil_r. now destruct st.
  - cbn [map sweep step]. unfold finish, bind, lift. rewrite Hnm, Hp.
    cbn [getitem insert_one ret fst snd]. rewrite IH. cbn [menu orders].
    now rewrite <- app_assoc.
Qed.

(** X21. Nothing bounds the number of calls that succeed at the same
    time.  With unique [_id]s, for an item the lookup finds, with a
    price and any positive stock [k]: when every call does its lookup
    before any does its decrement, every call returns the confirmation,
    as many orders are written as there are calls, and the stock ends
    at [k] less the number of calls, below 0 when there are more calls
    than units. *)
Theorem every_call_can_succeed (nows : list Z) (item_name : string) (st : store)
        (it : document) (k : Z) (p : scalar) :
  unique_ids st ->
  fst (find_one (exact_match item_name) st) = Returned (Some it) ->
  stock it = Some (SInt k) -> 0 < k ->
  price it = Some p ->
  exists nm before after,
    item it = Some (SStr nm)
    /\ menu st = (before ++ it :: after)%list
    /\ interleave (seq 0 (length nows) ++ seq 0 (length nows) ++ seq 0 (length nows))
                  (map (fun t => Calling t item_name) nows) st
       = (map (fun _ => Finished (Returned ("SUCCESS: Ordered " ++ nm
                                            ++ ". It will arrive in 30 mins.")))
              nows,
          {| menu := before ++ with_stock it (SInt (k - Z.of_nat (length nows))) :: after;
             orders := orders st
                       ++ map (fun t => {| order_item := SStr nm; order_price := p;
                                           status := "kitchen_preparing";
                                           timestamp := t |})
                              nows |}).
Proof.
  intros Hnd H Hk Hpos Hp. destruct (exact_match_named _ _ _ H) as [nm Hnm].
  destruct (find_one_some _ _ _ H) as (f & Hf & Hfind).
  destruct (find_split _ _ _ Hfind) as (before & after & Hmenu & _ & _).
  exists nm, before, after. split; [exact Hnm|]. split; [exact Hmenu|].
  assert (Hfound : find_one (exact_match item_name) st = (Returned (Some it), st)).
  { pose proof (find_one_reads (exact_match item_name) st) as Hs.
    destruct (find_one (exact_match item_name) st) as [o st']. simpl in *. congruence. }
  unfold unique_ids in Hnd. rewrite Hmenu in Hnd.
  assert (Hsweep : forall threads,
             length threads = length nows ->
             forall st0, interleave (seq 0 (length nows)) threads st0
                         = sweep threads st0).
  { intros threads Hlen st0. rewrite <- Hlen.
    pose proof (interleave_seq threads [] st0) as Hi. cbn [length app] in Hi.
    rewrite Hi. now destruct (sweep threads st0). }
  rewrite !interleave_app.
  rewrite (Hsweep _ (length_map _ _) st), (sweep_lookups item_name st it k nows Hfound Hk Hpos).
  cbn [fst snd].
  rewrite (Hsweep _ (length_map _ _) st).
  destruct st as [m os]. simpl in Hmenu. subst m. cbn [orders].
  assert (Hst : {| menu := before ++ it :: after; orders := os |}
                = {| menu := before ++ with_stock it (SInt k) :: after; orders := os |})
    by now rewrite (with_stock_same it _ Hk).
  rewrite Hst, (sweep_decrements it before after os nows Hnd k). cbn [fst snd].
  rewrite (Hsweep _ (length_map _ _)).
  rewrite (sweep_records it nm p nows Hnm Hp). reflexivity.
Qed.

End RaceFacts.

Lemma races_keep_the_books_witness :
  let calls := [Calling 1 "Fruit Platter"; Calling 2 "Fruit Platter"] in
  forallb complete (menu last_platter) = true /\ forallb is_calling calls = true
  /\ total_stock (menu (snd (interleave [0; 1; 0; 1; 0; 1]%nat calls last_platter)))
     + Z.of_nat (length (orders (snd (interleave [0; 1; 0; 1; 0; 1]%nat calls last_platter))))
     + units_in_flight (fst (interleave [0; 1; 0; 1; 0; 1]%nat calls last_platter))
     = 1.
Proof.
  intros calls. split; [reflexivity|]. split; [reflexivity|].
  exact (races_keep_the_books [0; 1; 0; 1; 0; 1]%nat calls last_platter eq_refl eq_refl).
Defined.

Lemma every_call_can_succeed_witness :
  let it := with_stock fruit_platter (SInt 1) in
  unique_ids last_platter
  /\ fst (find_one (exact_match "fruit platter") last_platter) = Returned (Some it)
  /\ stock it = Some (SInt 1) /\ 0 < 1 /\ price it = Some (SInt 10)
  /\ fst (interleave (seq 0 3 ++ seq 0 3 ++ seq 0 3)
                     (map (fun t => Calling t "fruit platter") [4; 5; 6])
                     last_platter)
     = repeat (Finished
                 (Returned "SUCCESS: Ordered Fruit Platter. It will arrive in 30 mins."))
              3.
Proof.
  intros it.
  assert (Hnd : unique_ids last_platter).
  { unfold unique_ids. simpl. repeat constructor. simpl. intuition. }
  assert (Hf : fst (find_one (exact_match "fruit platter") last_platter)
               = Returned (Some it)) by (vm_compute; reflexivity).
  split; [exact Hnd|]. split; [exact Hf|]. split; [reflexivity|]. split; [lia|].
  split; [reflexivity|].
  destruct (every_call_can_succeed [4; 5; 6] "fruit platter" last_platter it 1 (SInt 10)
              Hnd Hf eq_refl eq_refl eq_refl)
    as (nm & before & after & Hnm & _ & Hrun).
  cbn [length] in Hrun. rewrite Hrun. injection Hnm as <-. reflexivity.
Defined.

(* ================================================================== *)
(** ** The text for no match *)

Section SentinelFacts.

Context {engine : Engine}.

(** X22. The fixed text ["No matching items found on the menu."] means
    that nothing matched, and only that: on well-typed documents the
    search returns it exactly when its cursor yields no document, since
    every line of a result begins with a dash. *)
Theorem no_match_text_means_no_match (query : string) (st : store)
        (cursor : list document) :
  fst (select query st) = Returned cursor ->
  forallb well_typed cursor = true ->
  fst (check_menu query st) = Returned "No matching items found on the menu."
  <-> cursor = [].
Proof.
  intros Hsel Hwt. rewrite (check_menu_text query st cursor Hsel Hwt). simpl.
  unfold result_text. destruct cursor as [|doc cursor]; simpl.
  - split; reflexivity.
  - split; [|discriminate]. unfold py_join.
    destruct cursor; simpl; intros H; discriminate H.
Qed.

End SentinelFacts.

Lemma no_match_text_means_no_match_witness :
  fst (select "pizza" seeded) = Returned []
  /\ forallb well_typed [] = true
  /\ fst (check_menu "pizza" seeded) = Returned "No matching items found on the menu.".
Proof.
  assert (Hsel : fst (select "pizza" seeded) = Returned []) by (vm_compute; reflexivity).
  split; [exact Hsel|]. split; [reflexivity|].
  exact (proj2 (no_match_text_means_no_match "pizza" seeded [] Hsel eq_refl) eq_refl).
Defined.
